(** * The deployment pipeline of pkg/deployer/deploy.go

  A shallow embedding of [Deployer.Deploy] and [Deployer.completeConfig].
  Go pointers to the objects the pipeline works on (the service, the
  Spinnaker configuration, the generated manifests, the status copy) are
  cells of a [Store]; every collaborator that is handed such a pointer
  returns the new content of the object.  Everything else a collaborator
  can reach (the cluster behind [d.client], Halyard behind [d.m], the
  private fields of a transformer) is the [World].  The store also keeps
  the log of the calls that were made, in the order they were made. *)

From Stdlib Require Import List String Arith Lia Bool.
Import ListNotations.
Open Scope string_scope.
Open Scope list_scope.

Set Implicit Arguments.

(** ** Data *)

Section Pipeline.

(** [halconfig.SpinnakerConfig], [generated.SpinnakerGeneratedConfig],
    the fields of [SpinnakerServiceStatus] other than [Version], the spec
    of a [SpinnakerService], [corev1.ConfigMap], [corev1.Secret], any other
    [runtime.Object], [runtime.Scheme], the state of the collaborators and
    the error values they make. *)
Variables Config Bundle StatusRest SvcSpec ConfigMap Secret Other
          Scheme World ExtErr : Type.

(** A Go [error] that is not nil. *)
Inductive error : Type :=
| Errorf (msg : string)
| ExtError (e : ExtErr).

Record SpinnakerServiceStatus : Type := mkStatus {
  Version : string;
  statusRest : StatusRest
}.

Record SpinnakerService : Type := mkService {
  Name : string;
  Spec : SvcSpec;
  Status : SpinnakerServiceStatus
}.

(** [svc.Status.DeepCopy()]: a new object with the same content. *)
Definition DeepCopy (st : SpinnakerServiceStatus) : SpinnakerServiceStatus :=
  mkStatus (Version st) (statusRest st).

(** [status.Version = v] *)
Definition set_Version (v : string) (st : SpinnakerServiceStatus)
  : SpinnakerServiceStatus :=
  mkStatus v (statusRest st).

(** [runtime.Object], by what the two type assertions of
    [completeConfig] can tell apart. *)
Inductive Object : Type :=
| ConfigMapObj (cm : ConfigMap)
| SecretObj (sec : Secret)
| OtherObj (o : Other).

(** The [Transformer] interface. *)
Record Transformer : Type := mkTransformer {
  TransformConfig :
    Config -> World -> Config * World * option error;
  TransformManifests :
    Scheme -> Config -> Bundle -> SpinnakerServiceStatus -> World ->
    Config * Bundle * SpinnakerServiceStatus * World * option error
}.

(** The [TransformerGenerator] interface; [svc] is passed by value. *)
Record TransformerGenerator : Type := mkGenerator {
  NewTransformer : SpinnakerService -> World -> World * (error + Transformer)
}.

(** The [manifestGenerator] interface. *)
Record manifestGenerator : Type := mkManifestGenerator {
  Generate : Config -> World -> Config * World * (error + Bundle)
}.

(** Modelled from the spec: the methods [deployConfig] and
    [commitConfigToStatus] of [Deployer] are declared in other files of the
    package; they are fields here, next to [m] and [generators] of the Go
    struct ([client], [rawClient], [evtRecorder] and [log] are behind
    [World] and the call log).  [deployConfig] is handed the pointers [l]
    and [status] and persists them (spec 4.1, step 9).
    [commitConfigToStatus] is handed [svc], [status] and [config]; the
    declaration and the carrier are owned by the caller and only read
    (spec 3), the status is committed durably (spec 4.1, step 11). *)
Record Deployer : Type := mkDeployer {
  m : manifestGenerator;
  generators : list TransformerGenerator;
  deployConfig :
    Scheme -> Bundle -> SpinnakerServiceStatus -> World ->
    Bundle * SpinnakerServiceStatus * World * option error;
  commitConfigToStatus :
    SpinnakerService -> SpinnakerServiceStatus -> Object -> World ->
    SpinnakerServiceStatus * World * option error
}.

(** ** The call log *)

Inductive Event : Type :=
| LogInfo (msg : string)
    (* rLogger.Info(msg) *)
| Eventf (reason message : string)
    (* d.evtRecorder.Eventf(svc, corev1.EventTypeNormal, reason, message) *)
| CompleteConfig (c : Config) (err : option error)
    (* d.completeConfig returned (c, err) *)
| GetVersion (v : string) (err : option error)
    (* c.GetHalConfigPropString("version") returned (v, err) *)
| NewTransformerCall (i : nat) (err : option error)
    (* d.generators[i].NewTransformer returned (_, err) *)
| TransformConfigCall (i : nat) (c_in c_out : Config) (err : option error)
    (* transformer i got the config as c_in, left it as c_out, returned err *)
| GenerateCall (c : Config) (err : option error)
    (* d.m.Generate(c) returned (_, err) *)
| TransformManifestsCall (i : nat)
    (l_in : Bundle) (st_in : SpinnakerServiceStatus)
    (l_out : Bundle) (st_out : SpinnakerServiceStatus)
    (err : option error)
    (* transformers[i].TransformManifests on (l_in, st_in) *)
| DeployConfigCall (l : Bundle) (st : SpinnakerServiceStatus)
    (err : option error)
    (* d.deployConfig(ctx, scheme, l, status, rLogger) *)
| CommitCall (st : SpinnakerServiceStatus) (err : option error).
    (* d.commitConfigToStatus(ctx, svc, status, config) *)

(** ** The store *)

Record Store : Type := mkStore {
  h_svc : SpinnakerService;              (* the object behind [svc] *)
  h_c : option Config;                   (* behind [c], nil at first *)
  h_l : option Bundle;                   (* behind [l] *)
  h_status : option SpinnakerServiceStatus;   (* behind [status] *)
  world : World;
  trace : list Event
}.

Definition set_c (c : Config) (s : Store) : Store :=
  mkStore (h_svc s) (Some c) (h_l s) (h_status s) (world s) (trace s).
Definition set_l (l : Bundle) (s : Store) : Store :=
  mkStore (h_svc s) (h_c s) (Some l) (h_status s) (world s) (trace s).
Definition set_status (st : SpinnakerServiceStatus) (s : Store) : Store :=
  mkStore (h_svc s) (h_c s) (h_l s) (Some st) (world s) (trace s).
Definition set_world (w : World) (s : Store) : Store :=
  mkStore (h_svc s) (h_c s) (h_l s) (h_status s) w (trace s).
Definition record (e : Event) (s : Store) : Store :=
  mkStore (h_svc s) (h_c s) (h_l s) (h_status s) (world s) (trace s ++ [e]).

(** What a caller sets up: its service, the world, nothing else. *)
Definition initial (svc : SpinnakerService) (w : World) : Store :=
  mkStore svc None None None w [].

(** ** Control: state, early return, run-time panic *)

Inductive result (A : Type) : Type :=
| Ok (a : A)            (* went on; for the whole of Deploy: returned nil *)
| Return (e : error)    (* return err, err not nil *)
| Panic.                (* index out of range *)
Arguments Return {A} e.
Arguments Panic {A}.

Definition M (A : Type) : Type := Store -> Store * result A.

Definition ret {A} (a : A) : M A := fun s => (s, Ok a).

Definition bind {A B} (x : M A) (k : A -> M B) : M B :=
  fun s =>
    match x s with
    | (s', Ok a) => k a s'
    | (s', Return e) => (s', Return e)
    | (s', Panic) => (s', Panic)
    end.

Definition emit (e : Event) : M unit := fun s => (record e s, Ok tt).

(** [if err != nil { return err }] *)
Definition check (err : option error) : M unit :=
  fun s =>
    match err with
    | None => (s, Ok tt)
    | Some e => (s, Return e)
    end.

Definition info (msg : string) : M unit := emit (LogInfo msg).
Definition eventf (reason message : string) : M unit :=
  emit (Eventf reason message).


Notation "x <- c1 ;; c2" := (bind c1 (fun x => c2))
  (at level 61, c1 at next level, right associativity).
Notation "' pat <- c1 ;; c2" := (bind c1 (fun x => match x with pat => c2 end))
  (at level 61, pat pattern, c1 at next level, right associativity).
Notation "c1 ;; c2" := (bind c1 (fun _ => c2))
  (at level 61, right associativity).

(** ** Package halconfig *)

(** [halconfig.NewSpinnakerConfig()], [hc.FromConfigMap(cm)] and
    [hc.FromSecret(sec)] (the receiver [hc] comes back with what the loader
    put in it), and the property reader behind [GetHalConfigPropString]. *)
Variable NewSpinnakerConfig : Config.
Variable FromConfigMap : Config -> ConfigMap -> Config * option error.
Variable FromSecret : Config -> Secret -> Config * option error.
Variable readPropString : Config -> string -> error + string.

(** Modelled from the spec: [GetHalConfigPropString] is a method of
    [halconfig.SpinnakerConfig], which is not in deploy.go.  It returns the
    Go pair (value, error); a read that fails yields the empty string
    (spec 4.1, step 2). *)
Definition GetHalConfigPropString (c : Config) (prop : string)
  : string * option error :=
  match readPropString c prop with
  | inl e => (EmptyString, Some e)
  | inr v => (v, None)
  end.

(** ** deploy.go *)

(** [completeConfig] retrieves the complete config referenced by the
    service; like the Go function it returns [hc] next to the error. *)
Definition completeConfig (svc : SpinnakerService) (config : Object)
  : Config * option error :=
  let hc := NewSpinnakerConfig in
  match config with
  | ConfigMapObj cm => FromConfigMap hc cm
  | SecretObj sec => FromSecret hc sec
  | OtherObj _ =>
      (hc, Some (Errorf "SpinnakerService does not reference configMap or secret. No configuration found"))
  end.

(** [c, err := d.completeConfig(svc, config)] *)
Definition do_completeConfig (config : Object) : M (Config * option error) :=
  fun s =>
    let '(c, err) := completeConfig (h_svc s) config in
    (record (CompleteConfig c err) (set_c c s), Ok (c, err)).

(** [v, err := c.GetHalConfigPropString("version")] *)
Definition do_GetHalConfigPropString (c : Config)
  : M (string * option error) :=
  fun s =>
    let '(v, err) := GetHalConfigPropString c "version" in
    (record (GetVersion v err) s, Ok (v, err)).

(** [tr, err := t.NewTransformer( *svc, d.client)] and the return on error *)
Definition do_NewTransformer (i : nat) (t : TransformerGenerator)
  : M Transformer :=
  fun s =>
    match NewTransformer t (h_svc s) (world s) with
    | (w, inl e) =>
        (record (NewTransformerCall i (Some e)) (set_world w s), Return e)
    | (w, inr tr) =>
        (record (NewTransformerCall i None) (set_world w s), Ok tr)
    end.

(** [err = tr.TransformConfig(c)] and the return on error *)
Definition do_TransformConfig (i : nat) (tr : Transformer) (c : Config)
  : M Config :=
  fun s =>
    let '(c', w, err) := TransformConfig tr c (world s) in
    let s' :=
      record (TransformConfigCall i c c' err) (set_world w (set_c c' s)) in
    match err with
    | Some e => (s', Return e)
    | None => (s', Ok c')
    end.

(** [l, err := d.m.Generate(c)] and the return on error *)
Definition do_Generate (d : Deployer) (c : Config) : M (Config * Bundle) :=
  fun s =>
    match Generate (m d) c (world s) with
    | (c', w, inl e) =>
        (record (GenerateCall c (Some e)) (set_world w (set_c c' s)), Return e)
    | (c', w, inr l) =>
        (record (GenerateCall c None) (set_world w (set_l l (set_c c' s))),
         Ok (c', l))
    end.

(** [status := svc.Status.DeepCopy()] *)
Definition do_DeepCopy : M SpinnakerServiceStatus :=
  fun s =>
    let status := DeepCopy (Status (h_svc s)) in
    (set_status status s, Ok status).

(** [transformers[i]]: out of range is a run-time panic. *)
Definition index (transformers : list Transformer) (i : nat) : M Transformer :=
  fun s =>
    match nth_error transformers i with
    | Some tr => (s, Ok tr)
    | None => (s, Panic)
    end.

(** [err = tr.TransformManifests(scheme, c, l, status)] and the return on
    error *)
Definition do_TransformManifests (i : nat) (tr : Transformer) (scheme : Scheme)
  (c : Config) (l : Bundle) (status : SpinnakerServiceStatus)
  : M (Config * Bundle * SpinnakerServiceStatus) :=
  fun s =>
    let '(c', l', status', w, err) :=
      TransformManifests tr scheme c l status (world s) in
    let s' :=
      record (TransformManifestsCall i l status l' status' err)
        (set_world w (set_status status' (set_l l' (set_c c' s)))) in
    match err with
    | Some e => (s', Return e)
    | None => (s', Ok (c', l', status'))
    end.

(** [err = d.deployConfig(ctx, scheme, l, status, rLogger)] and the return
    on error *)
Definition do_deployConfig (d : Deployer) (scheme : Scheme)
  (l : Bundle) (status : SpinnakerServiceStatus)
  : M (Bundle * SpinnakerServiceStatus) :=
  fun s =>
    let '(l', status', w, err) := deployConfig d scheme l status (world s) in
    let s' :=
      record (DeployConfigCall l status err)
        (set_world w (set_status status' (set_l l' s))) in
    match err with
    | Some e => (s', Return e)
    | None => (s', Ok (l', status'))
    end.

(** [status.Version = v] *)
Definition do_set_Version (v : string) (status : SpinnakerServiceStatus)
  : M SpinnakerServiceStatus :=
  fun s =>
    let status' := set_Version v status in
    (set_status status' s, Ok status').

(** [return d.commitConfigToStatus(ctx, svc, status, config)] *)
Definition do_commitConfigToStatus (d : Deployer)
  (status : SpinnakerServiceStatus) (config : Object) : M unit :=
  fun s =>
    let '(status', w, err) :=
      commitConfigToStatus d (h_svc s) status config (world s) in
    let s' :=
      record (CommitCall status err) (set_world w (set_status status' s)) in
    match err with
    | Some e => (s', Return e)
    | None => (s', Ok tt)
    end.

(** The first loop of [Deploy], [for _, t := range d.generators];
    [i] is the position of [t] in [d.generators]. *)
Fixpoint forward (i : nat) (gens : list TransformerGenerator)
  (transformers : list Transformer) (c : Config)
  : M (list Transformer * Config) :=
  match gens with
  | [] => ret (transformers, c)
  | t :: gens' =>
      tr <- do_NewTransformer i t ;;
      let transformers := transformers ++ [tr] in
      c <- do_TransformConfig i tr c ;;
      forward (S i) gens' transformers c
  end.

(** The second loop, [for i := range transformers], on
    [transformers[len(transformers)-i-1]]; [range] holds the values of [i]
    still to come. *)
Fixpoint backward (transformers : list Transformer) (scheme : Scheme)
  (range : list nat) (c : Config) (l : Bundle)
  (status : SpinnakerServiceStatus)
  : M (Config * Bundle * SpinnakerServiceStatus) :=
  match range with
  | [] => ret (c, l, status)
  | i :: range' =>
      let j := List.length transformers - i - 1 in
      tr <- index transformers j ;;
      '(c, l, status) <- do_TransformManifests j tr scheme c l status ;;
      backward transformers scheme range' c l status
  end.

(** [Deploy] takes a SpinnakerService definition and transforms it into
    manifests to create. *)
Definition Deploy (d : Deployer) (scheme : Scheme) (config : Object) : M unit :=
  info "Retrieving complete Spinnaker configuration" ;;
  '(c, err) <- do_completeConfig config ;;
  check err ;;
  '(v, err) <- do_GetHalConfigPropString c ;;
  match err with
  | Some _ => info "Unable to retrieve version from config, ignoring error"
  | None => ret tt
  end ;;
  eventf "Config" ("New configuration detected, version: " ++ v)%string ;;
  info "Applying options to Spinnaker config" ;;
  '(transformers, c) <- forward 0 (generators d) [] c ;;
  info "Generating manifests with Halyard" ;;
  '(c, l) <- do_Generate d c ;;
  info "Applying options to generated manifests" ;;
  status <- do_DeepCopy ;;
  '(c, l, status) <-
    backward transformers scheme (seq 0 (List.length transformers)) c l status ;;
  info "Saving manifests" ;;
  '(l, status) <- do_deployConfig d scheme l status ;;
  eventf "Config" ("Spinnaker version " ++ v ++ " deployment set")%string ;;
  status <- do_set_Version v status ;;
  info ("Deployed version " ++ v ++ ", setting status")%string ;;
  do_commitConfigToStatus d status config.

(** One call of [d.Deploy(svc, scheme, config)] by a caller that holds
    [svc], in the world [w]: what is returned and the store left behind. *)
Definition run (d : Deployer) (svc : SpinnakerService) (scheme : Scheme)
  (config : Object) (w : World) : Store * result unit :=
  Deploy d scheme config (initial svc w).

(** ** Reading the call log *)

(** The calls to collaborators that [Deploy] makes. *)
Inductive Step : Type :=
| Resolve                (* d.completeConfig *)
| ReadVersion            (* c.GetHalConfigPropString *)
| Construct (i : nat)    (* d.generators[i].NewTransformer *)
| Forward (i : nat)      (* TransformConfig of transformer i *)
| Gen                    (* d.m.Generate *)
| Backward (i : nat)     (* TransformManifests of transformer i *)
| Persist                (* d.deployConfig *)
| Commit.                (* d.commitConfigToStatus *)

Definition call_of (e : Event) : option (Step * option error) :=
  match e with
  | LogInfo _ => None
  | Eventf _ _ => None
  | CompleteConfig _ err => Some (Resolve, err)
  | GetVersion _ err => Some (ReadVersion, err)
  | NewTransformerCall i err => Some (Construct i, err)
  | TransformConfigCall i _ _ err => Some (Forward i, err)
  | GenerateCall _ err => Some (Gen, err)
  | TransformManifestsCall i _ _ _ _ err => Some (Backward i, err)
  | DeployConfigCall _ _ err => Some (Persist, err)
  | CommitCall _ err => Some (Commit, err)
  end.

(** The calls of a log, in order, each with the error it returned. *)
Fixpoint calls (tr : list Event) : list (Step * option error) :=
  match tr with
  | [] => []
  | e :: tr' =>
      match call_of e with
      | Some x => x :: calls tr'
      | None => calls tr'
      end
  end.

(** The messages handed to the event recorder, in order. *)
Fixpoint emitted (tr : list Event) : list string :=
  match tr with
  | [] => []
  | Eventf _ message :: tr' => message :: emitted tr'
  | _ :: tr' => emitted tr'
  end.

(** The status objects handed to [commitConfigToStatus], in order. *)
Fixpoint committed (tr : list Event) : list SpinnakerServiceStatus :=
  match tr with
  | [] => []
  | CommitCall st _ :: tr' => st :: committed tr'
  | _ :: tr' => committed tr'
  end.

(** The transformers whose [TransformConfig] was called, in order. *)
Fixpoint forward_calls (tr : list Event) : list nat :=
  match tr with
  | [] => []
  | TransformConfigCall i _ _ _ :: tr' => i :: forward_calls tr'
  | _ :: tr' => forward_calls tr'
  end.

(** The transformers whose [TransformManifests] was called, in order. *)
Fixpoint backward_calls (tr : list Event) : list nat :=
  match tr with
  | [] => []
  | TransformManifestsCall i _ _ _ _ _ :: tr' => i :: backward_calls tr'
  | _ :: tr' => backward_calls tr'
  end.

(** The generators whose [NewTransformer] was called, in order. *)
Fixpoint construct_calls (tr : list Event) : list nat :=
  match tr with
  | [] => []
  | NewTransformerCall i _ :: tr' => i :: construct_calls tr'
  | _ :: tr' => construct_calls tr'
  end.

(** The manifests and status handed to [deployConfig], in order. *)
Fixpoint persisted (tr : list Event)
  : list (Bundle * SpinnakerServiceStatus) :=
  match tr with
  | [] => []
  | DeployConfigCall l st _ :: tr' => (l, st) :: persisted tr'
  | _ :: tr' => persisted tr'
  end.

(** For every [TransformConfig] call of a log, in order: the transformer
    that was called and the generators whose [NewTransformer] had returned a
    transformer by then ([built] holds those before the log starts). *)
Fixpoint built_before (built : list nat) (tr : list Event)
  : list (nat * list nat) :=
  match tr with
  | [] => []
  | NewTransformerCall i None :: tr' => built_before (built ++ [i]) tr'
  | TransformConfigCall i _ _ _ :: tr' => (i, built) :: built_before built tr'
  | _ :: tr' => built_before built tr'
  end.

(** All [n] transformers are built before any [TransformConfig] call. *)
Definition all_built_before_forward (n : nat) (tr : list Event) : Prop :=
  built_before [] tr = map (fun i => (i, seq 0 n)) (forward_calls tr).

(** The [TransformConfig] calls of a log worked on one configuration: the
    first got it as [c], every other call got it as the call before left
    it, and [c_end] is how the last call left it. *)
Fixpoint config_chain (c : Config) (tr : list Event) (c_end : Config) : Prop :=
  match tr with
  | [] => c_end = c
  | TransformConfigCall _ c_in c_out _ :: tr' =>
      c_in = c /\ config_chain c_out tr' c_end
  | _ :: tr' => config_chain c tr' c_end
  end.

(** The same for the [TransformManifests] calls, on the manifests and the
    status. *)
Fixpoint manifest_chain (l : Bundle) (st : SpinnakerServiceStatus)
  (tr : list Event) (l_end : Bundle) (st_end : SpinnakerServiceStatus)
  : Prop :=
  match tr with
  | [] => l_end = l /\ st_end = st
  | TransformManifestsCall _ l_in st_in l_out st_out _ :: tr' =>
      (l_in = l /\ st_in = st) /\ manifest_chain l_out st_out tr' l_end st_end
  | _ :: tr' => manifest_chain l st tr' l_end st_end
  end.

(** ** The logs [Deploy] can leave *)

(** A run of [k] rounds of the first loop that all went well, from
    generator [i] on; [outs] are the configurations the transformers left. *)
Fixpoint cfg_steps (i : nat) (c : Config) (outs : list Config) : list Event :=
  match outs with
  | [] => []
  | c' :: outs' =>
      NewTransformerCall i None :: TransformConfigCall i c c' None
        :: cfg_steps (S i) c' outs'
  end.

(** Rounds of the second loop that all went well, from transformer [j]
    down; [outs] are the manifests and status the transformers left. *)
Fixpoint man_steps (j : nat) (l : Bundle) (st : SpinnakerServiceStatus)
  (outs : list (Bundle * SpinnakerServiceStatus)) : list Event :=
  match outs with
  | [] => []
  | (l', st') :: outs' =>
      TransformManifestsCall j l st l' st' None :: man_steps (pred j) l' st' outs'
  end.

Definition t_head (c : Config) (v : string) (verr : option error)
  : list Event :=
  [LogInfo "Retrieving complete Spinnaker configuration";
   CompleteConfig c None;
   GetVersion v verr]
  ++ match verr with
     | Some _ =>
         [LogInfo "Unable to retrieve version from config, ignoring error"]
     | None => []
     end
  ++ [Eventf "Config" ("New configuration detected, version: " ++ v)%string;
      LogInfo "Applying options to Spinnaker config"].

Definition t_forward (c : Config) (v : string) (verr : option error)
  (outs : list Config) : list Event :=
  t_head c v verr ++ cfg_steps 0 c outs.

Definition t_generate (c : Config) (v : string) (verr : option error)
  (outs : list Config) : list Event :=
  t_forward c v verr outs
  ++ [LogInfo "Generating manifests with Halyard";
      GenerateCall (last outs c) None;
      LogInfo "Applying options to generated manifests"].

Definition t_backward (n : nat) (svc : SpinnakerService)
  (c : Config) (v : string) (verr : option error)
  (outs : list Config) (l : Bundle)
  (mouts : list (Bundle * SpinnakerServiceStatus)) : list Event :=
  t_generate c v verr outs
  ++ man_steps (n - 1) l (DeepCopy (Status svc)) mouts.

Definition t_persist (n : nat) (svc : SpinnakerService)
  (c : Config) (v : string) (verr : option error)
  (outs : list Config) (l : Bundle)
  (mouts : list (Bundle * SpinnakerServiceStatus))
  (perr : option error) : list Event :=
  t_backward n svc c v verr outs l mouts
  ++ [LogInfo "Saving manifests";
      DeployConfigCall (fst (last mouts (l, DeepCopy (Status svc))))
        (snd (last mouts (l, DeepCopy (Status svc)))) perr].

Definition t_commit (n : nat) (svc : SpinnakerService)
  (c : Config) (v : string) (verr : option error)
  (outs : list Config) (l : Bundle)
  (mouts : list (Bundle * SpinnakerServiceStatus))
  (st : SpinnakerServiceStatus) (cerr : option error) : list Event :=
  t_persist n svc c v verr outs l mouts None
  ++ [Eventf "Config" ("Spinnaker version " ++ v ++ " deployment set")%string;
      LogInfo ("Deployed version " ++ v ++ ", setting status")%string;
      CommitCall (set_Version v st) cerr].

(** Where a run of [Deploy] on [svc] and [config] with [n] generators can
    stop, with the store it leaves and what it returns. *)
Inductive Deploy_shape (n : nat) (svc : SpinnakerService) (config : Object)
  (s : Store) : result unit -> Prop :=
| stop_resolve c e :
    completeConfig svc config = (c, Some e) ->
    trace s = [LogInfo "Retrieving complete Spinnaker configuration";
               CompleteConfig c (Some e)] ->
    h_c s = Some c -> h_l s = None -> h_status s = None ->
    Deploy_shape n svc config s (Return e)
| stop_construct c v verr outs e :
    completeConfig svc config = (c, None) ->
    GetHalConfigPropString c "version" = (v, verr) ->
    List.length outs < n ->
    trace s = t_forward c v verr outs
              ++ [NewTransformerCall (List.length outs) (Some e)] ->
    h_c s = Some (last outs c) -> h_l s = None -> h_status s = None ->
    Deploy_shape n svc config s (Return e)
| stop_forward c v verr outs c_out e :
    completeConfig svc config = (c, None) ->
    GetHalConfigPropString c "version" = (v, verr) ->
    List.length outs < n ->
    trace s = t_forward c v verr outs
              ++ [NewTransformerCall (List.length outs) None;
                  TransformConfigCall (List.length outs) (last outs c) c_out
                    (Some e)] ->
    h_c s = Some c_out -> h_l s = None -> h_status s = None ->
    Deploy_shape n svc config s (Return e)
| stop_generate c v verr outs e :
    completeConfig svc config = (c, None) ->
    GetHalConfigPropString c "version" = (v, verr) ->
    List.length outs = n ->
    trace s = t_forward c v verr outs
              ++ [LogInfo "Generating manifests with Halyard";
                  GenerateCall (last outs c) (Some e)] ->
    h_l s = None -> h_status s = None ->
    Deploy_shape n svc config s (Return e)
| stop_backward c v verr outs l mouts l_out st_out e :
    completeConfig svc config = (c, None) ->
    GetHalConfigPropString c "version" = (v, verr) ->
    List.length outs = n ->
    List.length mouts < n ->
    trace s = t_backward n svc c v verr outs l mouts
              ++ [TransformManifestsCall (n - 1 - List.length mouts)
                    (fst (last mouts (l, DeepCopy (Status svc))))
                    (snd (last mouts (l, DeepCopy (Status svc))))
                    l_out st_out (Some e)] ->
    h_l s = Some l_out -> h_status s = Some st_out ->
    Deploy_shape n svc config s (Return e)
| stop_persist c v verr outs l mouts e :
    completeConfig svc config = (c, None) ->
    GetHalConfigPropString c "version" = (v, verr) ->
    List.length outs = n ->
    List.length mouts = n ->
    trace s = t_persist n svc c v verr outs l mouts (Some e) ->
    Deploy_shape n svc config s (Return e)
| stop_commit c v verr outs l mouts st e :
    completeConfig svc config = (c, None) ->
    GetHalConfigPropString c "version" = (v, verr) ->
    List.length outs = n ->
    List.length mouts = n ->
    trace s = t_commit n svc c v verr outs l mouts st (Some e) ->
    Deploy_shape n svc config s (Return e)
| stop_done c v verr outs l mouts st :
    completeConfig svc config = (c, None) ->
    GetHalConfigPropString c "version" = (v, verr) ->
    List.length outs = n ->
    List.length mouts = n ->
    trace s = t_commit n svc c v verr outs l mouts st None ->
    Deploy_shape n svc config s (Ok tt).

(** ** More readings of the log *)

(** The configurations handed to [d.m.Generate], in order. *)
Fixpoint generated_from (tr : list Event) : list Config :=
  match tr with
  | [] => []
  | GenerateCall c _ :: tr' => c :: generated_from tr'
  | _ :: tr' => generated_from tr'
  end.

(** The lines written with [rLogger.Info], in order. *)
Fixpoint logged (tr : list Event) : list string :=
  match tr with
  | [] => []
  | LogInfo msg :: tr' => msg :: logged tr'
  | _ :: tr' => logged tr'
  end.

(** The calls of [Deploy] in the order of its text, for [n] generators:
    the resolution, the version read, one round of [NewTransformer] and
    [TransformConfig] per generator, the generation, the reverse calls from
    the last transformer down, the persistence and the commit. *)
Definition pipeline (n : nat) : list Step :=
  [Resolve; ReadVersion]
  ++ flat_map (fun i => [Construct i; Forward i]) (seq 0 n)
  ++ [Gen]
  ++ map Backward (rev (seq 0 n))
  ++ [Persist; Commit].

(** What a Go function returns for its [err]: nil or the error. *)
Definition returned (err : option error) : result unit :=
  match err with
  | None => Ok tt
  | Some e => Return e
  end.

End Pipeline.

Arguments Errorf {ExtErr} msg.
Arguments ExtError {ExtErr} e.
Arguments ConfigMapObj {ConfigMap Secret Other} cm.
Arguments SecretObj {ConfigMap Secret Other} sec.
Arguments OtherObj {ConfigMap Secret Other} o.
Arguments LogInfo {Config Bundle StatusRest ExtErr} msg.
Arguments Eventf {Config Bundle StatusRest ExtErr} reason message.
Arguments CompleteConfig {Config Bundle StatusRest ExtErr} c err.
Arguments GetVersion {Config Bundle StatusRest ExtErr} v err.
Arguments NewTransformerCall {Config Bundle StatusRest ExtErr} i err.
Arguments TransformConfigCall {Config Bundle StatusRest ExtErr} i c_in c_out err.
Arguments GenerateCall {Config Bundle StatusRest ExtErr} c err.
Arguments TransformManifestsCall {Config Bundle StatusRest ExtErr}
  i l_in st_in l_out st_out err.
Arguments DeployConfigCall {Config Bundle StatusRest ExtErr} l st err.
Arguments CommitCall {Config Bundle StatusRest ExtErr} st err.
Arguments Ok {ExtErr A} a.
Arguments Return {ExtErr A} e.
Arguments Panic {ExtErr A}.
Arguments initial {Config Bundle StatusRest SvcSpec World ExtErr} svc w.
Arguments cfg_steps {Config Bundle StatusRest ExtErr} i c outs.
Arguments man_steps {Config Bundle StatusRest ExtErr} j l st outs.
Arguments t_head {Config Bundle StatusRest ExtErr} c v verr.
Arguments t_forward {Config Bundle StatusRest ExtErr} c v verr outs.
Arguments t_generate {Config Bundle StatusRest ExtErr} c v verr outs.

(** * A deployer to run the pipeline on *)

Module Scenario.

(** The configuration is the version it holds, if any, and the markers the
    transformers left; manifests are markers; the world is what has been
    written to the cluster. *)
Definition config : Type := option string * list string.
Definition bundle : Type := list string.
Definition cluster : Type := list string.

Definition newConfig : config := (None, []).

(** A config map holds a version or none; a secret can be read or not. *)
Definition fromConfigMap (hc : config) (cm : option string)
  : config * option (error string) :=
  ((cm, snd hc), None).

Definition fromSecret (hc : config) (sec : option string)
  : config * option (error string) :=
  match sec with
  | Some v => ((Some v, snd hc), None)
  | None => (hc, Some (ExtError "secret cannot be read"))
  end.

Definition propString (c : config) (prop : string) : error string + string :=
  match fst c with
  | Some v => inr v
  | None => inl (ExtError "property not found")
  end.

(** What one transformer of a scenario does: it leaves its name in what it
    is handed, and fails where the plan says so. *)
Record Plan : Type := mkPlan {
  p_name : string;
  p_new : bool;
  p_config : bool;
  p_manifests : bool
}.

Definition marker (name : string) : Plan := mkPlan name true true true.

Definition failing (ok : bool) (what : string) : option (error string) :=
  if ok then None else Some (ExtError what).

Definition transformer_of (p : Plan)
  : Transformer config bundle (list string) unit cluster string :=
  mkTransformer
    (fun c w =>
       ((fst c, snd c ++ [p_name p]), w, failing (p_config p) (p_name p)))
    (fun _ c l st w =>
       (c, l ++ [p_name p], mkStatus (Version st) (statusRest st ++ [p_name p]),
        w, failing (p_manifests p) (p_name p))).

Definition generator_of (p : Plan)
  : TransformerGenerator config bundle (list string) unit unit cluster string :=
  mkGenerator
    (fun _ w =>
       (w, if p_new p then inr (transformer_of p)
           else inl (ExtError (p_name p)))).

Definition deployer_of (plans : list Plan) (generate persist commit : bool)
  : Deployer config bundle (list string) unit (option string) (option string)
      unit unit cluster string :=
  mkDeployer
    (mkManifestGenerator
       (fun c w =>
          (c, w, if generate then inr [] else inl (ExtError "generate"))))
    (map generator_of plans)
    (fun _ l st w =>
       (l, st, if persist then w ++ l else w, failing persist "persist"))
    (fun _ st _ w =>
       (st, if commit then w ++ [Version st] else w, failing commit "commit")).

Definition svc0 : SpinnakerService (list string) unit :=
  mkService "spinnaker" tt (mkStatus "1.19.0" ["old"]).

Definition deploy (plans : list Plan) (generate persist commit : bool)
  (carrier : Object (option string) (option string) unit) :=
  run newConfig fromConfigMap fromSecret propString
    (deployer_of plans generate persist commit) svc0 tt carrier [].

Definition abc : list Plan := [marker "A"; marker "B"; marker "C"].

(** Scenario A of the spec: three markers, version 1.20.0. *)
Definition scenario_A := deploy abc true true true (ConfigMapObj (Some "1.20.0")).

(** Scenario B: a carrier that is neither a config map nor a secret. *)
Definition scenario_B := deploy abc true true true (OtherObj tt).

(** Scenario C: the forward call of the second transformer fails. *)
Definition scenario_C :=
  deploy [marker "A"; mkPlan "B" true false true; marker "C"] true true true
    (ConfigMapObj (Some "1.20.0")).

(** Scenario D: everything but the status commit succeeds. *)
Definition scenario_D := deploy abc true true false (ConfigMapObj (Some "1.20.0")).

(** The reverse call of the second transformer fails. *)
Definition scenario_reverse :=
  deploy [marker "A"; mkPlan "B" true true false; marker "C"] true true true
    (ConfigMapObj (Some "1.20.0")).

(** The config map holds no version. *)
Definition scenario_no_version := deploy abc true true true (ConfigMapObj None).

(** The secret cannot be read. *)
Definition scenario_secret := deploy abc true true true (SecretObj None).

(** No transformer is registered. *)
Definition scenario_empty := deploy [] true true true (ConfigMapObj (Some "1.20.0")).

(** The second transformer cannot be built. *)
Definition scenario_construct :=
  deploy [marker "A"; mkPlan "B" false true true; marker "C"] true true true
    (ConfigMapObj (Some "1.20.0")).

(** The manifests cannot be generated. *)
Definition scenario_generate :=
  deploy abc false true true (ConfigMapObj (Some "1.20.0")).

(** The manifests cannot be persisted. *)
Definition scenario_persist :=
  deploy abc true false true (ConfigMapObj (Some "1.20.0")).

End Scenario.

Create Rewrite HintDb log.

(** * Properties of the pipeline *)

Section Properties.

Variables Config Bundle StatusRest SvcSpec ConfigMap Secret Other
          Scheme World ExtErr : Type.
Variable NewSpinnakerConfig : Config.
Variable FromConfigMap : Config -> ConfigMap -> Config * option (error ExtErr).
Variable FromSecret : Config -> Secret -> Config * option (error ExtErr).
Variable readPropString : Config -> string -> error ExtErr + string.

Local Abbreviation deployer :=
  (Deployer Config Bundle StatusRest SvcSpec ConfigMap Secret Other Scheme
     World ExtErr).
Local Abbreviation store := (Store Config Bundle StatusRest SvcSpec World ExtErr).
Local Abbreviation transformer :=
  (Transformer Config Bundle StatusRest Scheme World ExtErr).
Local Abbreviation generator :=
  (TransformerGenerator Config Bundle StatusRest SvcSpec Scheme World ExtErr).
Local Abbreviation event := (Event Config Bundle StatusRest ExtErr).
Local Abbreviation status := (SpinnakerServiceStatus StatusRest).
Local Abbreviation service := (SpinnakerService StatusRest SvcSpec).
Local Abbreviation object := (Object ConfigMap Secret Other).
Local Abbreviation Run :=
  (run NewSpinnakerConfig FromConfigMap FromSecret readPropString).
Local Abbreviation resolve :=
  (completeConfig NewSpinnakerConfig FromConfigMap FromSecret).
Local Abbreviation version_of := (GetHalConfigPropString readPropString).

(** ** Lists *)

Lemma last_cons (A : Type) (a d : A) (l : list A) :
  last (a :: l) d = last l a.
Proof.
  revert a d. induction l as [|b l IH]; intros a d.
  - reflexivity.
  - change (last (a :: b :: l) d) with (last (b :: l) d).
    rewrite (IH b d), (IH b a). reflexivity.
Qed.

(** ** Reading a log piece by piece *)

Lemma calls_app (a b : list event) : calls (a ++ b) = calls a ++ calls b.
Proof.
  induction a as [|e a IH]; [reflexivity|].
  simpl. destruct (call_of e); simpl; rewrite IH; reflexivity.
Qed.

Lemma emitted_app (a b : list event) :
  emitted (a ++ b) = emitted a ++ emitted b.
Proof.
  induction a as [|e a IH]; [reflexivity|].
  destruct e; simpl; rewrite IH; reflexivity.
Qed.

Lemma committed_app (a b : list event) :
  committed (a ++ b) = committed a ++ committed b.
Proof.
  induction a as [|e a IH]; [reflexivity|].
  destruct e; simpl; rewrite IH; reflexivity.
Qed.

Lemma forward_calls_app (a b : list event) :
  forward_calls (a ++ b) = forward_calls a ++ forward_calls b.
Proof.
  induction a as [|e a IH]; [reflexivity|].
  destruct e; simpl; rewrite IH; reflexivity.
Qed.

Lemma backward_calls_app (a b : list event) :
  backward_calls (a ++ b) = backward_calls a ++ backward_calls b.
Proof.
  induction a as [|e a IH]; [reflexivity|].
  destruct e; simpl; rewrite IH; reflexivity.
Qed.

Lemma construct_calls_app (a b : list event) :
  construct_calls (a ++ b) = construct_calls a ++ construct_calls b.
Proof.
  induction a as [|e a IH]; [reflexivity|].
  destruct e; simpl; rewrite IH; reflexivity.
Qed.

Lemma calls_cfg_steps (outs : list Config) :
  forall (i : nat) (c : Config),
    calls (cfg_steps i c outs : list event)
    = flat_map (fun k => [(Construct k, None); (Forward k, None)])
        (seq i (List.length outs)).
Proof.
  induction outs as [|c' outs IH]; intros i c; [reflexivity|].
  simpl. rewrite IH. reflexivity.
Qed.

Lemma forward_calls_cfg_steps (outs : list Config) :
  forall (i : nat) (c : Config),
    forward_calls (cfg_steps i c outs : list event) = seq i (List.length outs).
Proof.
  induction outs as [|c' outs IH]; intros i c; [reflexivity|].
  simpl. rewrite IH. reflexivity.
Qed.

Lemma construct_calls_cfg_steps (outs : list Config) :
  forall (i : nat) (c : Config),
    construct_calls (cfg_steps i c outs : list event)
    = seq i (List.length outs).
Proof.
  induction outs as [|c' outs IH]; intros i c; [reflexivity|].
  simpl. rewrite IH. reflexivity.
Qed.

Lemma backward_calls_cfg_steps (outs : list Config) :
  forall (i : nat) (c : Config),
    backward_calls (cfg_steps i c outs : list event) = [].
Proof.
  induction outs as [|c' outs IH]; intros i c; [reflexivity|].
  simpl. apply IH.
Qed.

Lemma emitted_cfg_steps (outs : list Config) :
  forall (i : nat) (c : Config),
    emitted (cfg_steps i c outs : list event) = [].
Proof.
  induction outs as [|c' outs IH]; intros i c; [reflexivity|].
  simpl. apply IH.
Qed.

Lemma committed_cfg_steps (outs : list Config) :
  forall (i : nat) (c : Config),
    committed (cfg_steps i c outs : list event) = [].
Proof.
  induction outs as [|c' outs IH]; intros i c; [reflexivity|].
  simpl. apply IH.
Qed.

Lemma persisted_app (a b : list event) :
  persisted (a ++ b) = persisted a ++ persisted b.
Proof.
  induction a as [|e a IH]; [reflexivity|].
  destruct e; simpl; rewrite IH; reflexivity.
Qed.

Lemma persisted_cfg_steps (outs : list Config) :
  forall (i : nat) (c : Config),
    persisted (cfg_steps i c outs : list event) = [].
Proof.
  induction outs as [|c' outs IH]; intros i c; [reflexivity|].
  simpl. apply IH.
Qed.

Lemma persisted_man_steps (outs : list (Bundle * status)) :
  forall (j : nat) (l : Bundle) (st : status),
    persisted (man_steps j l st outs : list event) = [].
Proof.
  induction outs as [|[l' st'] outs IH]; intros j l st; [reflexivity|].
  simpl. apply IH.
Qed.

(** Counting down from [j]: the indices of [m] rounds of the second loop. *)
Lemma seq_down (m : nat) :
  forall j : nat,
    m <= j ->
    j :: rev (seq (j - m) m) = rev (seq (j - m) (S m)).
Proof.
  intros j Hm. rewrite seq_S, rev_app_distr. simpl.
  replace (j - m + m) with j by lia. reflexivity.
Qed.

Lemma backward_calls_man_steps (outs : list (Bundle * status)) :
  forall (j : nat) (l : Bundle) (st : status),
    List.length outs <= S j ->
    backward_calls (man_steps j l st outs : list event)
    = rev (seq (S j - List.length outs) (List.length outs)).
Proof.
  induction outs as [|[l' st'] outs IH]; intros j l st Hlen; [reflexivity|].
  simpl in Hlen. cbn [man_steps backward_calls List.length].
  destruct outs as [|o outs'].
  - simpl. replace (j - 0) with j by lia. reflexivity.
  - rewrite IH by (simpl in *; lia).
    replace (S (pred j)) with j by (simpl in *; lia).
    replace (S j - S (List.length (o :: outs')))
      with (j - List.length (o :: outs')) by lia.
    apply seq_down. simpl in *. lia.
Qed.

Lemma calls_man_steps (outs : list (Bundle * status)) :
  forall (j : nat) (l : Bundle) (st : status),
    calls (man_steps j l st outs : list event)
    = map (fun k => (Backward k, None))
        (backward_calls (man_steps j l st outs : list event)).
Proof.
  induction outs as [|[l' st'] outs IH]; intros j l st; [reflexivity|].
  simpl. rewrite IH. reflexivity.
Qed.

Lemma forward_calls_man_steps (outs : list (Bundle * status)) :
  forall (j : nat) (l : Bundle) (st : status),
    forward_calls (man_steps j l st outs : list event) = [].
Proof.
  induction outs as [|[l' st'] outs IH]; intros j l st; [reflexivity|].
  simpl. apply IH.
Qed.

Lemma construct_calls_man_steps (outs : list (Bundle * status)) :
  forall (j : nat) (l : Bundle) (st : status),
    construct_calls (man_steps j l st outs : list event) = [].
Proof.
  induction outs as [|[l' st'] outs IH]; intros j l st; [reflexivity|].
  simpl. apply IH.
Qed.

Lemma emitted_man_steps (outs : list (Bundle * status)) :
  forall (j : nat) (l : Bundle) (st : status),
    emitted (man_steps j l st outs : list event) = [].
Proof.
  induction outs as [|[l' st'] outs IH]; intros j l st; [reflexivity|].
  simpl. apply IH.
Qed.

Lemma committed_man_steps (outs : list (Bundle * status)) :
  forall (j : nat) (l : Bundle) (st : status),
    committed (man_steps j l st outs : list event) = [].
Proof.
  induction outs as [|[l' st'] outs IH]; intros j l st; [reflexivity|].
  simpl. apply IH.
Qed.

(** The second loop starts at [n - 1]. *)
Lemma backward_calls_rounds (n : nat) (l : Bundle) (st : status)
  (outs : list (Bundle * status)) :
  List.length outs <= n ->
  backward_calls (man_steps (n - 1) l st outs : list event)
  = rev (seq (n - List.length outs) (List.length outs)).
Proof.
  intros Hlen. destruct n as [|n].
  - destruct outs; [reflexivity|simpl in Hlen; lia].
  - rewrite backward_calls_man_steps by lia.
    replace (S (S n - 1)) with (S n) by lia. reflexivity.
Qed.

(** ** The two loops *)

Lemma forward_run (gens : list generator) :
  forall (i : nat) (trs : list transformer) (c : Config) (s : store),
    h_c s = Some c ->
    match forward i gens trs c s with
    | (s', Ok (trs', c')) =>
        exists outs,
          List.length outs = List.length gens /\
          trace s' = trace s ++ cfg_steps i c outs /\
          c' = last outs c /\ h_c s' = Some c' /\
          List.length trs' = List.length trs + List.length gens /\
          h_svc s' = h_svc s /\ h_l s' = h_l s /\ h_status s' = h_status s
    | (s', Return e) =>
        exists outs,
          List.length outs < List.length gens /\
          h_svc s' = h_svc s /\ h_l s' = h_l s /\ h_status s' = h_status s /\
          ((trace s' = trace s ++ cfg_steps i c outs
                       ++ [NewTransformerCall (i + List.length outs) (Some e)] /\
            h_c s' = Some (last outs c)) \/
           (exists c_out,
              trace s' = trace s ++ cfg_steps i c outs
                         ++ [NewTransformerCall (i + List.length outs) None;
                             TransformConfigCall (i + List.length outs)
                               (last outs c) c_out (Some e)] /\
              h_c s' = Some c_out))
    | (_, Panic) => False
    end.
Proof.
  induction gens as [|t gens IH]; intros i trs c s Hc.
  - simpl. exists []. simpl. rewrite app_nil_r, Nat.add_0_r. auto 10.
  - simpl. unfold bind at 1. unfold do_NewTransformer.
    destruct (NewTransformer t (h_svc s) (world s)) as [w [e|tr]].
    + exists []. simpl. rewrite Nat.add_0_r.
      repeat split; auto; lia.
    + unfold bind at 1. unfold do_TransformConfig. simpl.
      destruct (TransformConfig tr c w) as [[c1 w1] [e|]].
      * exists []. simpl. rewrite Nat.add_0_r.
        split; [lia|]. do 3 (split; [reflexivity|]).
        right. exists c1. rewrite <- app_assoc. auto.
      * match goal with
        | |- context [forward (S i) gens ?trs' c1 ?s1] =>
            specialize (IH (S i) trs' c1 s1 eq_refl);
            destruct (forward (S i) gens trs' c1 s1) as [s' [[trs2 c2]|e|]]
        end; simpl in IH.
        -- destruct IH as (outs & Hlen & Htr & Hc2 & Hhc & Hl & Hsvc & Hhl & Hst).
           exists (c1 :: outs). rewrite last_cons. simpl.
           rewrite Htr, <- !app_assoc. simpl.
           rewrite length_app in Hl. simpl in Hl.
           repeat split; auto; lia.
        -- destruct IH as (outs & Hlen & Hsvc & Hhl & Hst & Hcase).
           exists (c1 :: outs). rewrite last_cons. simpl.
           replace (i + S (List.length outs)) with (S i + List.length outs) by lia.
           split; [lia|]. do 3 (split; [assumption|]).
           destruct Hcase as [[Htr Hhc]|(c_out & Htr & Hhc)].
           ++ left. rewrite Htr, <- !app_assoc. simpl. auto.
           ++ right. exists c_out. rewrite Htr, <- !app_assoc. simpl. auto.
        -- exact IH.
Qed.

Lemma backward_run (trs : list transformer) (scheme : Scheme) :
  forall (b a : nat) (c : Config) (l : Bundle) (st : status) (s : store),
    a + b = List.length trs ->
    h_l s = Some l -> h_status s = Some st ->
    match backward trs scheme (seq a b) c l st s with
    | (s', Ok (c', l', st')) =>
        exists outs,
          List.length outs = b /\
          trace s' = trace s ++ man_steps (List.length trs - a - 1) l st outs /\
          (l', st') = last outs (l, st) /\
          h_l s' = Some l' /\ h_status s' = Some st' /\ h_svc s' = h_svc s
    | (s', Return e) =>
        exists outs l_out st_out,
          List.length outs < b /\
          trace s' = trace s ++ man_steps (List.length trs - a - 1) l st outs
                     ++ [TransformManifestsCall
                           (List.length trs - a - 1 - List.length outs)
                           (fst (last outs (l, st))) (snd (last outs (l, st)))
                           l_out st_out (Some e)] /\
          h_l s' = Some l_out /\ h_status s' = Some st_out /\
          h_svc s' = h_svc s
    | (_, Panic) => False
    end.
Proof.
  induction b as [|b IH]; intros a c l st s Hab Hl Hst.
  - simpl. exists []. simpl. rewrite app_nil_r. auto 10.
  - simpl. unfold bind at 1. unfold index.
    destruct (nth_error trs (List.length trs - a - 1)) as [tr|] eqn:Hnth.
    2:{ apply nth_error_None in Hnth. lia. }
    unfold bind at 1. unfold do_TransformManifests.
    destruct (TransformManifests tr scheme c l st (world s))
      as [[[[c1 l1] st1] w1] [e|]].
    + exists [], l1, st1. simpl. rewrite Nat.sub_0_r.
      split; [lia|]. auto.
    + match goal with
      | |- context [backward trs scheme (seq (S a) b) c1 l1 st1 ?s1] =>
          specialize (IH (S a) c1 l1 st1 s1 ltac:(lia) eq_refl eq_refl);
          destruct (backward trs scheme (seq (S a) b) c1 l1 st1 s1)
            as [s' [[[c2 l2] st2]|e|]]
      end; simpl in IH.
      * destruct IH as (outs & Hlen & Htr & Hlast & Hhl & Hhst & Hsvc).
        exists ((l1, st1) :: outs). rewrite last_cons. simpl.
        rewrite Htr, <- app_assoc. simpl.
        replace (pred (List.length trs - a - 1))
          with (List.length trs - S a - 1) by lia.
        auto 10.
      * destruct IH as (outs & l_out & st_out & Hlen & Htr & Hhl & Hhst & Hsvc).
        exists ((l1, st1) :: outs), l_out, st_out. rewrite last_cons. simpl.
        rewrite Htr, <- app_assoc. simpl.
        replace (pred (List.length trs - a - 1))
          with (List.length trs - S a - 1) by lia.
        replace (List.length trs - a - 1 - S (List.length outs))
          with (List.length trs - S a - 1 - List.length outs) by lia.
        split; [lia|]. auto.
      * exact IH.
Qed.

(** ** Every run has one of the eight shapes *)

Ltac store_simpl :=
  cbn [initial record set_c set_l set_status set_world
       h_svc h_c h_l h_status world trace app fst snd] in *.

Ltac trace_eq :=
  store_simpl; subst;
  repeat match goal with
         | H : trace _ = _ |- _ => rewrite H; clear H
         end;
  cbn [app]; rewrite <- ?app_assoc; reflexivity.

Lemma Deploy_run (d : deployer) (svc : service) (scheme : Scheme)
  (config : object) (w : World) :
  Deploy_shape NewSpinnakerConfig FromConfigMap FromSecret readPropString
    (List.length (generators d)) svc config
    (fst (Run d svc scheme config w)) (snd (Run d svc scheme config w))
  /\ h_svc (fst (Run d svc scheme config w)) = svc.
Proof.
  unfold run, Deploy.
  cbv [bind info eventf emit do_completeConfig check do_GetHalConfigPropString
       ret do_Generate do_DeepCopy do_deployConfig do_set_Version
       do_commitConfigToStatus].
  store_simpl.
  destruct (resolve svc config) as [c [e|]] eqn:Hres.
  - cbn. split; [|reflexivity]. eapply stop_resolve; eauto.
  - destruct (version_of c "version") as [v verr] eqn:Hver.
    destruct verr as [ve|].
    all: store_simpl.
    all: match goal with
         | |- context [forward 0 ?gens [] ?c0 ?s0] =>
             pose proof (@forward_run gens 0 [] c0 s0 eq_refl) as Hf;
             destruct (forward 0 gens [] c0 s0) as [s1 [[trs c1]|e|]]
         end.
    all: store_simpl.
    3,6: contradiction.
    2,4: destruct Hf as (outs & Hlen & Hsvc & Hhl & Hst & Hcase);
         (split; [|exact Hsvc]);
         destruct Hcase as [[Htr Hhc]|(c_out & Htr & Hhc)];
         [ eapply stop_construct with (outs := outs)
         | eapply stop_forward with (outs := outs) ];
         eauto; trace_eq.
    all: destruct Hf as (outs & Hlen & Htr & Hc1 & Hhc & Hlt & Hsvc & Hhl & Hst).
    all: destruct (Generate (m d) c1 (world s1)) as [[c2 w2] [e|l]].
    all: store_simpl.
    1,3: (split; [|exact Hsvc]);
         eapply stop_generate with (outs := outs); eauto; trace_eq.
    all: match goal with
         | |- context [backward ?ts ?sch ?rg ?c0 ?l0 ?st0 ?s0] =>
             pose proof (@backward_run ts sch (List.length ts) 0 c0 l0
                           st0 s0 eq_refl eq_refl eq_refl) as Hb;
             destruct (backward ts sch rg c0 l0 st0 s0)
               as [s2 [[[c3 l3] st3]|e|]]
         end.
    all: store_simpl.
    3,6: contradiction.
    all: cbn [List.length Nat.add] in Hlt; rewrite Hlt, Nat.sub_0_r, Hsvc in Hb.
    2,4: destruct Hb as (mouts & l_out & st_out & Hmlen & Hmtr & Hml & Hmst & Hmsvc);
         (split; [|congruence]);
         eapply stop_backward with (outs := outs) (mouts := mouts) (l := l);
         eauto; unfold t_backward, t_generate, t_forward, t_head; trace_eq.
    all: destruct Hb as (mouts & Hmlen & Hmtr & Hlast & Hml & Hmst & Hmsvc).
    all: destruct (deployConfig d scheme l3 st3 (world s2))
           as [[[l4 st4] w4] [e|]].
    all: store_simpl.
    1,3: (split; [|exact Hmsvc]);
         eapply stop_persist with (outs := outs) (mouts := mouts) (l := l);
         eauto;
         unfold t_persist, t_backward, t_generate, t_forward, t_head;
         rewrite <- Hlast; trace_eq.
    all: destruct (commitConfigToStatus d (h_svc s2) (set_Version v st4)
                     config w4) as [[st5 w5] [e|]].
    all: store_simpl.
    all: (split; [|exact Hmsvc]);
         first [ eapply stop_commit
                   with (outs := outs) (mouts := mouts) (l := l) (st := st4)
               | eapply stop_done
                   with (outs := outs) (mouts := mouts) (l := l) (st := st4) ];
         eauto;
         unfold t_commit, t_persist, t_backward, t_generate, t_forward, t_head;
         rewrite <- Hlast; trace_eq.
Qed.

(** ** The calls of each shape *)

Lemma calls_t_head (c : Config) (v : string) (verr : option (error ExtErr)) :
  calls (t_head c v verr : list event) = [(Resolve, None); (ReadVersion, verr)].
Proof. destruct verr; reflexivity. Qed.

Lemma emitted_t_head (c : Config) (v : string) (verr : option (error ExtErr)) :
  emitted (t_head c v verr : list event)
  = [("New configuration detected, version: " ++ v)%string].
Proof. destruct verr; reflexivity. Qed.

Lemma committed_t_head (c : Config) (v : string)
  (verr : option (error ExtErr)) :
  committed (t_head c v verr : list event) = [].
Proof. destruct verr; reflexivity. Qed.

Lemma forward_calls_t_head (c : Config) (v : string)
  (verr : option (error ExtErr)) :
  forward_calls (t_head c v verr : list event) = [].
Proof. destruct verr; reflexivity. Qed.

Lemma backward_calls_t_head (c : Config) (v : string)
  (verr : option (error ExtErr)) :
  backward_calls (t_head c v verr : list event) = [].
Proof. destruct verr; reflexivity. Qed.

Lemma construct_calls_t_head (c : Config) (v : string)
  (verr : option (error ExtErr)) :
  construct_calls (t_head c v verr : list event) = [].
Proof. destruct verr; reflexivity. Qed.

Lemma persisted_t_head (c : Config) (v : string)
  (verr : option (error ExtErr)) :
  persisted (t_head c v verr : list event) = [].
Proof. destruct verr; reflexivity. Qed.

Lemma in_rounds (x : Step * option (error ExtErr)) (i m : nat) :
  In x (flat_map (fun k => [(Construct k, None); (Forward k, None)]) (seq i m))
  <-> exists k, (i <= k < i + m) /\
                (x = (Construct k, None) \/ x = (Forward k, None)).
Proof.
  rewrite in_flat_map. split.
  - intros (k & Hk & Hx). apply in_seq in Hk. exists k. split; [exact Hk|].
    simpl in Hx. intuition auto.
  - intros (k & Hk & Hx). exists k. split; [apply in_seq; exact Hk|].
    simpl. intuition auto.
Qed.

Lemma in_back (x : Step * option (error ExtErr)) (a m : nat) :
  In x (map (fun k => (Backward k, None)) (rev (seq a m)))
  <-> exists k, (a <= k < a + m) /\ x = (Backward k, None).
Proof.
  rewrite in_map_iff. split.
  - intros (k & Hx & Hk). apply in_rev, in_seq in Hk. eauto.
  - intros (k & Hk & Hx). exists k. split; [auto|].
    apply in_rev. rewrite rev_involutive. apply in_seq. exact Hk.
Qed.

#[local] Hint Rewrite calls_app emitted_app committed_app forward_calls_app
  backward_calls_app construct_calls_app
  calls_cfg_steps forward_calls_cfg_steps construct_calls_cfg_steps
  backward_calls_cfg_steps emitted_cfg_steps committed_cfg_steps
  calls_man_steps forward_calls_man_steps construct_calls_man_steps
  emitted_man_steps committed_man_steps
  calls_t_head emitted_t_head committed_t_head forward_calls_t_head
  backward_calls_t_head construct_calls_t_head
  persisted_app persisted_cfg_steps persisted_man_steps persisted_t_head : log.

Ltac log_cbn :=
  cbn [calls call_of emitted committed forward_calls backward_calls
       construct_calls persisted app map] in *.

Ltac read_log :=
  unfold t_commit, t_persist, t_backward, t_generate, t_forward in *;
  log_cbn;
  autorewrite with log in *;
  rewrite ?backward_calls_rounds in * by lia;
  log_cbn.

Ltac in_norm :=
  repeat (rewrite ?in_app_iff, ?in_rounds, ?in_back in *; cbn [In] in * ).

Ltac crush :=
  repeat match goal with
         | H : exists _, _ |- _ => destruct H
         | H : _ /\ _ |- _ => destruct H
         | H : _ \/ _ |- _ => destruct H
         | H : (_, _) = (_, _) |- _ => inversion H; clear H; subst
         | H : False |- _ => contradiction
         | H : ?x <> ?x |- _ => contradiction H; reflexivity
         end.

Ltac pick tac := first [ solve [tac] | left; pick tac | right; pick tac ].

(** Splits a run into its eight shapes. *)
Ltac run_cases d svc scheme config w :=
  let Hshape := fresh "Hshape" in
  let Hsvc := fresh "Hsvc" in
  destruct (Deploy_run d svc scheme config w) as [Hshape Hsvc];
  destruct (Run d svc scheme config w) as [s r];
  cbn [fst snd] in *;
  destruct Hshape as
    [ c0 e0 Hres Htr Hhc Hhl Hhs
    | c0 v0 verr outs e0 Hres Hver Hlen Htr Hhc Hhl Hhs
    | c0 v0 verr outs c_out e0 Hres Hver Hlen Htr Hhc Hhl Hhs
    | c0 v0 verr outs e0 Hres Hver Hlen Htr Hhl Hhs
    | c0 v0 verr outs l0 mouts l_out st_out e0 Hres Hver Hlen Hmlen Htr Hhl Hhs
    | c0 v0 verr outs l0 mouts e0 Hres Hver Hlen Hmlen Htr
    | c0 v0 verr outs l0 mouts st0 e0 Hres Hver Hlen Hmlen Htr
    | c0 v0 verr outs l0 mouts st0 Hres Hver Hlen Hmlen Htr ].

(** C1: the status commit is called if and only if the resolution of the
    carrier, the construction and the forward call of every transformer, the
    generation, every reverse call and the persistence of the artifacts all
    returned without error; after a failure of one of these steps the commit
    is not reached. *)
Theorem commit_iff_all_succeeded (d : deployer) (svc : service)
  (scheme : Scheme) (config : object) (w : World) :
  let tr := trace (fst (Run d svc scheme config w)) in
  let n := List.length (generators d) in
  ((exists err, In (Commit, err) (calls tr))
   <-> (In (Resolve, None) (calls tr) /\
        (forall i, i < n ->
           In (Construct i, None) (calls tr) /\
           In (Forward i, None) (calls tr)) /\
        In (Gen, None) (calls tr) /\
        (forall i, i < n -> In (Backward i, None) (calls tr)) /\
        In (Persist, None) (calls tr)))
  /\ (forall stp e,
        stp <> ReadVersion -> stp <> Commit ->
        In (stp, Some e) (calls tr) ->
        forall err, ~ In (Commit, err) (calls tr)).
Proof.
  run_cases d svc scheme config w; rewrite Htr; clear Htr; read_log;
    (split; [split|]).
  all: try (intros [err H]; exfalso; in_norm; crush; fail).
  all: try (intros stp e1 Hnv Hnc Hin err H; in_norm; crush; fail).
  all: try (intros _; eexists; in_norm; pick reflexivity).
  all: intros _; rewrite Hlen, Hmlen, Nat.sub_diag.
  all: repeat split; try intros i Hi; in_norm.
  all: first [ pick reflexivity
             | pick ltac:(exists i; split; [lia|auto]) ].
Qed.


(** ** One configuration, one set of manifests *)

Lemma config_chain_skip (a : list event) :
  forward_calls a = [] ->
  forall (c : Config) (b : list event) (c_end : Config),
    config_chain c (a ++ b) c_end <-> config_chain c b c_end.
Proof.
  induction a as [|e a IH]; intros Ha c b c_end; [reflexivity|].
  destruct e; simpl in *; try discriminate Ha; auto.
Qed.

Lemma config_chain_cfg_steps (outs : list Config) :
  forall (i : nat) (c : Config) (b : list event) (c_end : Config),
    config_chain (last outs c) b c_end ->
    config_chain c (cfg_steps i c outs ++ b) c_end.
Proof.
  induction outs as [|c' outs IH]; intros i c b c_end Hb; [exact Hb|].
  rewrite last_cons in Hb. simpl. split; [reflexivity|]. apply IH, Hb.
Qed.

Lemma manifest_chain_skip (a : list event) :
  backward_calls a = [] ->
  forall (l : Bundle) (st : status) (b : list event)
         (l_end : Bundle) (st_end : status),
    manifest_chain l st (a ++ b) l_end st_end
    <-> manifest_chain l st b l_end st_end.
Proof.
  induction a as [|e a IH]; intros Ha l st b l_end st_end; [reflexivity|].
  destruct e; simpl in *; try discriminate Ha; auto.
Qed.

Lemma manifest_chain_man_steps (outs : list (Bundle * status)) :
  forall (j : nat) (l : Bundle) (st : status) (b : list event)
         (l_end : Bundle) (st_end : status),
    manifest_chain (fst (last outs (l, st))) (snd (last outs (l, st))) b
      l_end st_end ->
    manifest_chain l st (man_steps j l st outs ++ b) l_end st_end.
Proof.
  induction outs as [|[l' st'] outs IH]; intros j l st b l_end st_end Hb;
    [exact Hb|].
  rewrite last_cons in Hb. simpl. split; [auto|]. apply IH, Hb.
Qed.

(** C3: when the [TransformConfig] call of transformer [k] returns an error
    [e], [Deploy] returns [e]; the transformers after [k] get no forward
    call (they are not even built), the manifest generator is not called,
    no reverse call is made and no status is committed.  The configuration
    is left as the calls made it: every transformer got it as the one
    before left it, and it stays as the failing call left it. *)
Theorem forward_failure_aborts (d : deployer) (svc : service)
  (scheme : Scheme) (config : object) (w : World)
  (k : nat) (e : error ExtErr) :
  let s := fst (Run d svc scheme config w) in
  In (Forward k, Some e) (calls (trace s)) ->
  snd (Run d svc scheme config w) = Return e /\
  k < List.length (generators d) /\
  forward_calls (trace s) = seq 0 (S k) /\
  construct_calls (trace s) = seq 0 (S k) /\
  (forall err, ~ In (Gen, err) (calls (trace s))) /\
  backward_calls (trace s) = [] /\
  committed (trace s) = [] /\
  exists c0 c_in c_out,
    resolve svc config = (c0, None) /\
    In (TransformConfigCall k c_in c_out (Some e)) (trace s) /\
    config_chain c0 (trace s) c_out /\
    h_c s = Some c_out.
Proof.
  run_cases d svc scheme config w; intros Hin; rewrite Htr in Hin;
    read_log; in_norm; crush; try discriminate; try lia.
  rewrite Htr. read_log. rewrite ?app_nil_r, !seq_S. cbn [Nat.add].
  do 4 (split; [auto|]).
  split. { intros err H. in_norm. crush. }
  do 2 (split; [reflexivity|]).
  exists c0, (last outs c0), c_out.
  split; [assumption|]. split.
  { apply in_or_app. right. simpl. auto. }
  split; [|assumption].
  unfold t_forward. rewrite <- app_assoc.
  apply config_chain_skip; [apply forward_calls_t_head|].
  apply config_chain_cfg_steps. simpl. auto.
Qed.

(** C4: when the [TransformManifests] call of transformer [k] returns an
    error [e], [Deploy] returns [e] at once: the reverse calls made are those
    of the transformers n-1 down to [k], [deployConfig] and
    [commitConfigToStatus] are not called, and the manifests and the status
    copy are left in the store as the calls made them. *)
Theorem reverse_failure_aborts (d : deployer) (svc : service)
  (scheme : Scheme) (config : object) (w : World)
  (k : nat) (e : error ExtErr) :
  let s := fst (Run d svc scheme config w) in
  let n := List.length (generators d) in
  In (Backward k, Some e) (calls (trace s)) ->
  snd (Run d svc scheme config w) = Return e /\
  k < n /\
  backward_calls (trace s) = rev (seq k (n - k)) /\
  (forall err, ~ In (Persist, err) (calls (trace s))) /\
  (forall err, ~ In (Commit, err) (calls (trace s))) /\
  persisted (trace s) = [] /\
  committed (trace s) = [] /\
  exists l_gen l_in st_in l_out st_out,
    In (TransformManifestsCall k l_in st_in l_out st_out (Some e)) (trace s) /\
    manifest_chain l_gen (DeepCopy (Status svc)) (trace s) l_out st_out /\
    h_l s = Some l_out /\ h_status s = Some st_out.
Proof.
  run_cases d svc scheme config w; intros Hin; rewrite Htr in Hin;
    read_log; in_norm; crush; try discriminate; try lia.
  rewrite Htr. read_log.
  assert (Hk : exists m, List.length mouts = m /\
                         List.length (generators d) = S m +
                           (List.length (generators d) - 1 - List.length mouts)).
  { eexists. split; [reflexivity|lia]. }
  destruct Hk as (m & Hm & Hn).
  remember (List.length (generators d) - 1 - List.length mouts) as k eqn:Hk.
  split; [reflexivity|]. split; [lia|]. split.
  { replace (List.length (generators d) - List.length mouts) with (S k) by lia.
    replace (List.length (generators d) - k) with (S m) by lia.
    rewrite Hm. simpl. reflexivity. }
  split. { intros err H. in_norm. crush. }
  split. { intros err H. in_norm. crush. }
  do 2 (split; [reflexivity|]).
  exists l0, (fst (last mouts (l0, DeepCopy (Status (h_svc s))))),
    (snd (last mouts (l0, DeepCopy (Status (h_svc s))))), l_out, st_out.
  split. { apply in_or_app. right. simpl. auto. }
  split; [|auto].
  unfold t_backward. rewrite <- app_assoc.
  apply manifest_chain_skip.
  { read_log. reflexivity. }
  apply manifest_chain_man_steps. simpl. auto.
Qed.

(** C5: with a carrier that is neither a config map nor a secret,
    [Deploy] returns the error of [completeConfig]; the only call made is the
    resolution itself, so no transformer is built, no event is emitted, the
    generator is not called and no status is committed.  For a config map
    and for a secret, [completeConfig] is the loader, and the error of the
    loader is what [Deploy] returns. *)
Theorem unsupported_carrier_fails (d : deployer) (svc : service)
  (scheme : Scheme) (w : World) :
  (forall o : Other,
     let s := fst (Run d svc scheme (OtherObj o : object) w) in
     snd (Run d svc scheme (OtherObj o : object) w)
     = Return (Errorf "SpinnakerService does not reference configMap or secret. No configuration found") /\
     calls (trace s)
     = [(Resolve, Some (Errorf "SpinnakerService does not reference configMap or secret. No configuration found"))] /\
     construct_calls (trace s) = [] /\
     emitted (trace s) = [] /\
     committed (trace s) = [])
  /\ (forall cm : ConfigMap,
        resolve svc (ConfigMapObj cm : object) = FromConfigMap NewSpinnakerConfig cm /\
        forall c e,
          FromConfigMap NewSpinnakerConfig cm = (c, Some e) ->
          snd (Run d svc scheme (ConfigMapObj cm : object) w) = Return e)
  /\ (forall sec : Secret,
        resolve svc (SecretObj sec : object) = FromSecret NewSpinnakerConfig sec /\
        forall c e,
          FromSecret NewSpinnakerConfig sec = (c, Some e) ->
          snd (Run d svc scheme (SecretObj sec : object) w) = Return e).
Proof.
  split; [|split].
  - intros o.
    run_cases d svc scheme (@OtherObj ConfigMap Secret Other o) w;
      cbn in Hres; inversion Hres; subst.
    rewrite Htr. cbn. auto.
  - intros cm. split; [reflexivity|]. intros c e Hload.
    run_cases d svc scheme (@ConfigMapObj ConfigMap Secret Other cm) w;
      cbn in Hres; rewrite Hload in Hres; inversion Hres; subst.
    reflexivity.
  - intros sec. split; [reflexivity|]. intros c e Hload.
    run_cases d svc scheme (@SecretObj ConfigMap Secret Other sec) w;
      cbn in Hres; rewrite Hload in Hres; inversion Hres; subst.
    reflexivity.
Qed.

(** ** When the transformers are built *)

Lemma built_before_skip (a : list event) :
  construct_calls a = [] -> forward_calls a = [] ->
  forall (b : list nat) (rest : list event),
    built_before b (a ++ rest) = built_before b rest.
Proof.
  induction a as [|e a IH]; intros Hc Hf b rest; [reflexivity|].
  destruct e; simpl in *; try discriminate; auto.
Qed.

Lemma built_before_none (a : list event) :
  forward_calls a = [] -> forall b : list nat, built_before b a = [].
Proof.
  induction a as [|e a IH]; intros Hf b; [reflexivity|].
  destruct e; simpl in *; try discriminate; auto.
  destruct err; auto.
Qed.

Lemma built_before_cfg_steps (outs : list Config) :
  forall (i : nat) (c : Config) (rest : list event),
    built_before (seq 0 i) (cfg_steps i c outs ++ rest)
    = map (fun k => (k, seq 0 (S k))) (seq i (List.length outs))
      ++ built_before (seq 0 (i + List.length outs)) rest.
Proof.
  induction outs as [|c' outs IH]; intros i c rest.
  - simpl. rewrite Nat.add_0_r. reflexivity.
  - cbn [cfg_steps app built_before List.length seq map].
    rewrite <- seq_S. rewrite IH.
    replace (S i + List.length outs) with (i + S (List.length outs)) by lia.
    reflexivity.
Qed.

Lemma built_before_t_forward (c : Config) (v : string)
  (verr : option (error ExtErr)) (outs : list Config) (rest : list event) :
  built_before [] (t_forward c v verr outs ++ rest)
  = map (fun k => (k, seq 0 (S k))) (seq 0 (List.length outs))
    ++ built_before (seq 0 (List.length outs)) rest.
Proof.
  unfold t_forward. rewrite <- app_assoc.
  rewrite built_before_skip
    by (apply construct_calls_t_head || apply forward_calls_t_head).
  apply (built_before_cfg_steps outs 0).
Qed.

Lemma forward_calls_t_forward (c : Config) (v : string)
  (verr : option (error ExtErr)) (outs : list Config) :
  forward_calls (t_forward c v verr outs : list event)
  = seq 0 (List.length outs).
Proof. read_log. reflexivity. Qed.

Lemma construct_calls_t_forward (c : Config) (v : string)
  (verr : option (error ExtErr)) (outs : list Config) :
  construct_calls (t_forward c v verr outs : list event)
  = seq 0 (List.length outs).
Proof. read_log. reflexivity. Qed.

(** C6, as the code has it: a transformer is built right before its own
    [TransformConfig] call.  When transformer [i] gets its forward call, the
    transformers built so far are 0 .. i and no other; transformer [i] is
    built only once the forward call of transformer [i - 1] has returned
    without error; and after a failed forward call of transformer [k] the
    transformers after [k] are not built at all. *)
Theorem construction_interleaved (d : deployer) (svc : service)
  (scheme : Scheme) (config : object) (w : World) :
  let tr := trace (fst (Run d svc scheme config w)) in
  built_before [] tr = map (fun i => (i, seq 0 (S i))) (forward_calls tr) /\
  (forall i,
     In i (construct_calls tr) ->
     i = 0 \/ In (Forward (i - 1), None) (calls tr)) /\
  (forall k e,
     In (Forward k, Some e) (calls tr) -> construct_calls tr = seq 0 (S k)).
Proof.
  run_cases d svc scheme config w; rewrite Htr; clear Htr.
  1: { cbn. split; [reflexivity|]. split.
       - intros i [].
       - intros k e [H|[]]. discriminate H. }
  all: split;
    [ unfold t_commit, t_persist, t_backward, t_generate;
      rewrite <- ?app_assoc;
      rewrite built_before_t_forward, forward_calls_app,
        forward_calls_t_forward, map_app;
      f_equal;
      try match goal with
          | |- built_before _ ?rest = map _ (forward_calls ?rest) =>
              let Hr := fresh "Hr" in
              assert (Hr : forward_calls rest = []) by (read_log; reflexivity);
              rewrite Hr, (built_before_none _ Hr); reflexivity
          end;
      try (cbn [built_before forward_calls map]; rewrite seq_S; reflexivity)
    | ].
  all: read_log; rewrite ?app_nil_r; split.
  all: try (intros k e H; in_norm; crush; try discriminate;
            rewrite seq_S; reflexivity).
  all: intros i Hi; destruct i as [|i]; [left; reflexivity|right];
       cbn [Nat.sub]; rewrite Nat.sub_0_r;
       assert (Hlt : i < List.length outs)
         by first [ apply in_seq in Hi; lia
                  | apply in_app_or in Hi; destruct Hi as [Hi|Hi];
                    [ apply in_seq in Hi; lia
                    | destruct Hi as [Hi|[]]; lia ] ];
       in_norm; pick ltac:(exists i; split; [lia|auto]).
Qed.

(** C7: when the version cannot be read from the resolved configuration,
    [Deploy] goes on with the empty version: the failure is logged, it is
    not what [Deploy] returns (an error that [Deploy] returns comes from
    another call, and when every other call succeeds [Deploy] returns nil),
    the events announce the empty version and the status handed to the
    commit carries it. *)
Theorem version_failure_tolerated (d : deployer) (svc : service)
  (scheme : Scheme) (config : object) (w : World)
  (c : Config) (ev : error ExtErr) :
  let tr := trace (fst (Run d svc scheme config w)) in
  resolve svc config = (c, None) ->
  readPropString c "version" = inl ev ->
  In (GetVersion EmptyString (Some ev)) tr /\
  In (LogInfo "Unable to retrieve version from config, ignoring error") tr /\
  (forall e, snd (Run d svc scheme config w) = Return e ->
     exists stp, stp <> ReadVersion /\ In (stp, Some e) (calls tr)) /\
  ((forall stp e, In (stp, Some e) (calls tr) -> stp = ReadVersion) ->
   snd (Run d svc scheme config w) = Ok tt /\
   exists st, committed tr = [st]) /\
  hd_error (emitted tr) = Some "New configuration detected, version: " /\
  (forall msg, In msg (emitted tr) ->
     msg = "New configuration detected, version: " \/
     msg = "Spinnaker version  deployment set") /\
  (forall st, In st (committed tr) -> Version st = EmptyString).
Proof.
  run_cases d svc scheme config w; intros Hc Hv;
    rewrite Hc in Hres; inversion Hres; subst c0;
    unfold GetHalConfigPropString in Hver; rewrite Hv in Hver;
    inversion Hver; subst v0 verr; rewrite Htr; clear Htr.
  all: split;
    [ unfold t_commit, t_persist, t_backward, t_generate, t_forward, t_head;
      rewrite <- ?app_assoc; cbn [app In]; auto 6 | ].
  all: split;
    [ unfold t_commit, t_persist, t_backward, t_generate, t_forward, t_head;
      rewrite <- ?app_assoc; cbn [app In]; auto 6 | ].
  all: read_log; rewrite ?app_nil_r; cbn [hd_error In String.append].
  all: split;
    [ intros e1 He1;
      first [ discriminate He1
            | inversion He1; subst;
              eexists; split; [|in_norm; pick reflexivity]; discriminate ]
    | ].
  all: split;
    [ intros Hall;
      try (split; [reflexivity|eexists; reflexivity]);
      exfalso;
      match goal with
      | |- False =>
          match type of Hall with
          | context [(?stp, Some ?e1)] =>
              assert (Hx : stp = ReadVersion)
                by (apply (Hall stp e1); in_norm; pick reflexivity);
              discriminate Hx
          end
      end | ].
  all: split; [reflexivity|].
  all: split; [intros msg Hm; intuition auto|].
  all: intros st1 Hst1; try contradiction.
  all: destruct Hst1 as [Hst1|[]]; subst st1; reflexivity.
Qed.

(** C8: [Deploy] leaves the service of its caller as it was.  The
    status the transformers work on is a deep copy of [svc.Status]: what
    is handed to [deployConfig] is that copy as the reverse calls left it,
    and the status handed to the commit carries the version that was read.
    When the commit fails after everything else succeeded, the artifacts
    have been persisted and the status of the service is still the one it
    had before the call. *)
Theorem declaration_untouched (d : deployer) (svc : service)
  (scheme : Scheme) (config : object) (w : World) :
  let s := fst (Run d svc scheme config w) in
  h_svc s = svc /\
  (forall l st,
     In (l, st) (persisted (trace s)) ->
     exists l_gen,
       manifest_chain l_gen (DeepCopy (Status svc)) (trace s) l st) /\
  (forall c st,
     resolve svc config = (c, None) ->
     In st (committed (trace s)) ->
     Version st = fst (version_of c "version")) /\
  (forall e,
     In (Commit, Some e) (calls (trace s)) ->
     snd (Run d svc scheme config w) = Return e /\
     In (Persist, None) (calls (trace s)) /\
     Status (h_svc s) = Status svc).
Proof.
  run_cases d svc scheme config w; (split; [exact Hsvc|]);
    rewrite Htr; clear Htr; (split; [|split]).
  all: try (intros l1 st1 Hin; read_log; destruct Hin as [Hin|[]];
            inversion Hin; subst l1 st1; exists l0;
            rewrite <- !app_assoc;
            apply manifest_chain_skip; [apply backward_calls_t_head|];
            apply manifest_chain_skip; [apply backward_calls_cfg_steps|];
            cbn [app manifest_chain];
            apply manifest_chain_man_steps; cbn; auto; fail).
  all: try (intros l1 st1 Hin; read_log; contradiction).
  all: try (intros c1 st1 Hc1 Hin; read_log; try contradiction;
            destruct Hin as [Hin|[]]; subst st1;
            rewrite Hc1 in Hres; inversion Hres; subst c1;
            rewrite Hver; reflexivity).
  all: intros e1 Hin; read_log; in_norm; crush; try discriminate.
  split; [reflexivity|]. split; [|reflexivity].
  pick reflexivity.
Qed.

(** C9: [Deploy] returns an error [e] exactly when one of its calls other
    than the version read returned [e]: the error of the failing step goes
    back to the caller as it is.  An error of the version read is not
    returned: [Deploy] returns nil exactly when no call other than the
    version read returned an error. *)
Theorem errors_returned_unchanged (d : deployer) (svc : service)
  (scheme : Scheme) (config : object) (w : World) :
  let tr := trace (fst (Run d svc scheme config w)) in
  let r := snd (Run d svc scheme config w) in
  (forall e,
     r = Return e
     <-> exists stp, stp <> ReadVersion /\ In (stp, Some e) (calls tr)) /\
  (r = Ok tt
   <-> forall stp e, In (stp, Some e) (calls tr) -> stp = ReadVersion) /\
  r <> Panic.
Proof.
  run_cases d svc scheme config w; rewrite Htr; clear Htr; read_log;
    (split; [|split; [|discriminate]]).
  all: try (intros e1; split;
            [ intros He1;
              first [ discriminate He1
                    | inversion He1; subst;
                      eexists; split; [|in_norm; pick reflexivity];
                      discriminate ]
            | intros (stp & Hne & Hin); in_norm; crush;
              try discriminate; reflexivity ]).
  all: split.
  all: try (intros Hr; discriminate Hr).
  all: try (intros _; reflexivity).
  all: try (intros _ stp e1 Hin; in_norm; crush; try discriminate;
            reflexivity).
  all: intros Hall; exfalso;
       match type of Hall with
       | context [(?stp, Some ?e1)] =>
           assert (Hx : stp = ReadVersion)
             by (apply (Hall stp e1); in_norm; pick reflexivity);
           discriminate Hx
       end.
Qed.

Lemma t_head_event (c : Config) (v : string) (verr : option (error ExtErr)) :
  exists pre : list event,
    t_head c v verr
    = pre ++ [Eventf "Config"
                ("New configuration detected, version: " ++ v)%string;
              LogInfo "Applying options to Spinnaker config"] /\
    calls pre = [(Resolve, None); (ReadVersion, verr)] /\
    emitted pre = [].
Proof.
  destruct verr as [e|].
  - exists [LogInfo "Retrieving complete Spinnaker configuration";
            CompleteConfig c None; GetVersion v (Some e);
            LogInfo "Unable to retrieve version from config, ignoring error"].
    repeat split.
  - exists [LogInfo "Retrieving complete Spinnaker configuration";
            CompleteConfig c None; GetVersion v None].
    repeat split.
Qed.

(** C10: when the carrier is resolved, the event that announces the
    version is emitted, and the only calls made before it are the
    resolution and the version read: no transformer has been built or
    called by then, whatever happens next.  When the resolution fails, no
    event is emitted. *)
Theorem version_event_before_transformers (d : deployer) (svc : service)
  (scheme : Scheme) (config : object) (w : World) :
  let tr := trace (fst (Run d svc scheme config w)) in
  (forall c,
     resolve svc config = (c, None) ->
     exists pre post,
       tr = pre ++ Eventf "Config"
                     ("New configuration detected, version: "
                      ++ fst (version_of c "version"))%string :: post /\
       calls pre = [(Resolve, None);
                    (ReadVersion, snd (version_of c "version"))] /\
       emitted pre = []) /\
  (forall c e,
     resolve svc config = (c, Some e) ->
     emitted tr = [] /\ calls tr = [(Resolve, Some e)]).
Proof.
  run_cases d svc scheme config w; rewrite Htr; clear Htr; split.
  all: try (intros c1 Hc1; rewrite Hc1 in Hres; discriminate Hres).
  all: try (intros c1 e1 Hc1; rewrite Hc1 in Hres; discriminate Hres).
  1: { intros c1 e1 Hc1. rewrite Hc1 in Hres. inversion Hres; subst.
       split; reflexivity. }
  all: intros c1 Hc1; rewrite Hc1 in Hres; inversion Hres; subst c1;
       rewrite Hver; cbn [fst snd];
       destruct (t_head_event c0 v0 verr) as (pre & Hpre & Hcalls & Hem);
       exists pre; eexists; (split; [|split; assumption]);
       unfold t_commit, t_persist, t_backward, t_generate, t_forward;
       rewrite Hpre, <- !app_assoc; cbn [app]; reflexivity.
Qed.

(** * More of [Deploy] *)

(** ** The new readings, piece by piece *)

Lemma generated_from_app (a b : list event) :
  generated_from (a ++ b) = generated_from a ++ generated_from b.
Proof.
  induction a as [|e a IH]; [reflexivity|].
  destruct e; simpl; rewrite IH; reflexivity.
Qed.

Lemma generated_from_cfg_steps (outs : list Config) :
  forall (i : nat) (c : Config),
    generated_from (cfg_steps i c outs : list event) = [].
Proof.
  induction outs as [|c' outs IH]; intros i c; [reflexivity|].
  simpl. apply IH.
Qed.

Lemma generated_from_man_steps (outs : list (Bundle * status)) :
  forall (j : nat) (l : Bundle) (st : status),
    generated_from (man_steps j l st outs : list event) = [].
Proof.
  induction outs as [|[l' st'] outs IH]; intros j l st; [reflexivity|].
  simpl. apply IH.
Qed.

Lemma generated_from_t_head (c : Config) (v : string)
  (verr : option (error ExtErr)) :
  generated_from (t_head c v verr : list event) = [].
Proof. destruct verr; reflexivity. Qed.

Lemma logged_app (a b : list event) : logged (a ++ b) = logged a ++ logged b.
Proof.
  induction a as [|e a IH]; [reflexivity|].
  destruct e; simpl; rewrite IH; reflexivity.
Qed.

Lemma logged_cfg_steps (outs : list Config) :
  forall (i : nat) (c : Config), logged (cfg_steps i c outs : list event) = [].
Proof.
  induction outs as [|c' outs IH]; intros i c; [reflexivity|].
  simpl. apply IH.
Qed.

Lemma logged_man_steps (outs : list (Bundle * status)) :
  forall (j : nat) (l : Bundle) (st : status),
    logged (man_steps j l st outs : list event) = [].
Proof.
  induction outs as [|[l' st'] outs IH]; intros j l st; [reflexivity|].
  simpl. apply IH.
Qed.

#[local] Hint Rewrite generated_from_app generated_from_cfg_steps
  generated_from_man_steps generated_from_t_head
  logged_app logged_cfg_steps logged_man_steps : log.

Ltac read_all :=
  unfold t_commit, t_persist, t_backward, t_generate, t_forward in *;
  cbn [calls call_of emitted committed forward_calls backward_calls
       construct_calls persisted generated_from logged app map] in *;
  autorewrite with log in *;
  rewrite ?backward_calls_rounds in * by lia;
  cbn [calls call_of emitted committed forward_calls backward_calls
       construct_calls persisted generated_from logged app map] in *.

Lemma config_chain_none (b : list event) :
  forward_calls b = [] -> forall c : Config, config_chain c b c.
Proof.
  induction b as [|e b IH]; intros Hb c; [reflexivity|].
  destruct e; simpl in *; try discriminate Hb; auto.
Qed.

Lemma seq_split (m n : nat) :
  m < n -> seq 0 n = seq 0 m ++ m :: seq (S m) (n - S m).
Proof.
  intros Hm. replace n with (m + S (n - S m)) at 1 by lia.
  rewrite seq_app. reflexivity.
Qed.

Lemma steps_of_rounds (l : list nat) :
  map fst (flat_map (fun k => [(Construct k, @None (error ExtErr));
                               (Forward k, None)]) l)
  = flat_map (fun i => [Construct i; Forward i]) l.
Proof.
  induction l as [|i l IH]; [reflexivity|]. simpl. rewrite IH. reflexivity.
Qed.

Lemma steps_of_back (l : list nat) :
  map fst (map (fun k => (Backward k, @None (error ExtErr))) l)
  = map Backward l.
Proof. rewrite map_map. reflexivity. Qed.

Ltac not_nil H :=
  first [ discriminate H
        | apply app_eq_nil in H; destruct H as [_ H]; not_nil H ].

Ltac steps_norm :=
  unfold pipeline;
  cbn [map fst];
  rewrite ?map_app, ?steps_of_rounds, ?steps_of_back;
  cbn [map fst];
  rewrite ?flat_map_app, ?rev_app_distr, ?map_app;
  cbn [flat_map rev map app];
  rewrite ?map_app, <- ?app_assoc;
  cbn [map app].

(** X1: The calls of a run are a beginning of the pipeline: nothing is
    called out of order, nothing is skipped and nothing is called twice;
    the whole pipeline is run exactly when the commit is reached. *)
Theorem calls_follow_pipeline (d : deployer) (svc : service)
  (scheme : Scheme) (config : object) (w : World) :
  let tr := trace (fst (Run d svc scheme config w)) in
  let n := List.length (generators d) in
  exists rest,
    pipeline n = map fst (calls tr) ++ rest /\
    (rest = [] <-> exists err, In (Commit, err) (calls tr)).
Proof.
  run_cases d svc scheme config w; rewrite Htr; clear Htr; read_log.
  - eexists. split; [reflexivity|]. split.
    + intros H. discriminate H.
    + intros [err H]. in_norm. crush.
  - eexists. split;
      [unfold pipeline; rewrite (seq_split Hlen) at 1; steps_norm; reflexivity|].
    split.
    + intros H. not_nil H.
    + intros [err H]. in_norm. crush.
  - eexists. split;
      [unfold pipeline; rewrite (seq_split Hlen) at 1; steps_norm; reflexivity|].
    split.
    + intros H. not_nil H.
    + intros [err H]. in_norm. crush.
  - rewrite Hlen. eexists. split; [steps_norm; reflexivity|]. split.
    + intros H. not_nil H.
    + intros [err H]. in_norm. crush.
  - rewrite Hlen. eexists. split.
    { unfold pipeline.
      rewrite (@seq_split (List.length (generators d) - 1 - List.length mouts)
                 (List.length (generators d)) ltac:(lia)) at 2.
      replace (S (List.length (generators d) - 1 - List.length mouts))
        with (List.length (generators d) - List.length mouts) by lia.
      replace (List.length (generators d)
               - (List.length (generators d) - List.length mouts))
        with (List.length mouts) by lia.
      steps_norm. reflexivity. }
    split.
    + intros H. not_nil H.
    + intros [err H]. in_norm. crush.
  - rewrite Hlen, Hmlen, Nat.sub_diag. eexists.
    split; [steps_norm; reflexivity|]. split.
    + intros H. not_nil H.
    + intros [err H]. in_norm. crush.
  - rewrite Hlen, Hmlen, Nat.sub_diag. exists [].
    split; [steps_norm; reflexivity|]. split; [|reflexivity].
    intros _. eexists. in_norm. pick reflexivity.
  - rewrite Hlen, Hmlen, Nat.sub_diag. exists [].
    split; [steps_norm; reflexivity|]. split; [|reflexivity].
    intros _. eexists. in_norm. pick reflexivity.
Qed.

(** X2: [Deploy] returns what the last call it made returned.  That call
    is never the version read; the calls before it returned nil, the
    version read apart; and when it returned nil it is the commit. *)
Theorem deploy_returns_last_call (d : deployer) (svc : service)
  (scheme : Scheme) (config : object) (w : World) :
  let tr := trace (fst (Run d svc scheme config w)) in
  exists pre stp err,
    calls tr = pre ++ [(stp, err)] /\
    stp <> ReadVersion /\
    (forall stp' e', In (stp', Some e') pre -> stp' = ReadVersion) /\
    snd (Run d svc scheme config w) = returned err /\
    (err = None -> stp = Commit).
Proof.
  run_cases d svc scheme config w; rewrite Htr; clear Htr; read_log.
  1: exists [], Resolve, (Some e0).
  2-8: match goal with
       | |- exists pre stp err,
              ?a :: ?b :: (?l ++ [?x; (?s1, ?e1)]) = _ /\ _ =>
           exists (a :: b :: l ++ [x]), s1, e1
       | |- exists pre stp err,
              ?a :: ?b :: (?l ++ [(?s1, ?e1)]) = _ /\ _ =>
           exists (a :: b :: l), s1, e1
       end.
  all: (split; [cbn [app]; rewrite <- ?app_assoc; reflexivity|]).
  all: (split; [discriminate|]).
  all: (split;
        [ intros stp' e' H; in_norm; crush; try discriminate; reflexivity
        | ]).
  all: (split; [reflexivity|]).
  all: intros H; first [discriminate H | reflexivity].
Qed.

(** X3: The event recorder gets nothing when the resolution fails, the
    announcement of the version when the run stops before [deployConfig]
    returned nil, and both events from then on, whatever the commit
    returns. *)
Theorem events_follow_stages (d : deployer) (svc : service)
  (scheme : Scheme) (config : object) (w : World) :
  let tr := trace (fst (Run d svc scheme config w)) in
  (emitted tr = [] /\ exists e, In (Resolve, Some e) (calls tr))
  \/ (exists v,
        emitted tr = [("New configuration detected, version: " ++ v)%string] /\
        In (Resolve, None) (calls tr) /\
        ~ In (Persist, None) (calls tr))
  \/ (exists v,
        emitted tr
        = [("New configuration detected, version: " ++ v)%string;
           ("Spinnaker version " ++ v ++ " deployment set")%string] /\
        In (Persist, None) (calls tr)).
Proof.
  run_cases d svc scheme config w; rewrite Htr; clear Htr; read_log.
  1: { left. split; [reflexivity|]. exists e0. left. reflexivity. }
  1-5: right; left; exists v0; rewrite ?app_nil_r;
       (split; [reflexivity|]); (split; [left; reflexivity|]);
       intros H; in_norm; crush.
  all: right; right; exists v0; (split; [reflexivity|]);
       in_norm; pick reflexivity.
Qed.

(** X4: The version in both events is the version of the status handed to
    the commit. *)
Theorem committed_version_is_announced (d : deployer) (svc : service)
  (scheme : Scheme) (config : object) (w : World)
  (st : status) :
  let tr := trace (fst (Run d svc scheme config w)) in
  In st (committed tr) ->
  emitted tr
  = [("New configuration detected, version: " ++ Version st)%string;
     ("Spinnaker version " ++ Version st ++ " deployment set")%string].
Proof.
  run_cases d svc scheme config w; rewrite Htr; clear Htr; read_log;
    intros Hin; try contradiction.
  all: destruct Hin as [Hin|[]]; subst st; reflexivity.
Qed.

(** X5: [Generate] is called once at most, with the configuration as the
    last transformer left it: all the forward calls have been made by then,
    each on the configuration the call before left, and all returned nil. *)
Theorem generate_gets_transformed_config (d : deployer) (svc : service)
  (scheme : Scheme) (config : object) (w : World) (c_gen : Config) :
  let tr := trace (fst (Run d svc scheme config w)) in
  let n := List.length (generators d) in
  In c_gen (generated_from tr) ->
  generated_from tr = [c_gen] /\
  forward_calls tr = seq 0 n /\
  (forall i, i < n -> In (Forward i, None) (calls tr)) /\
  exists c0,
    resolve svc config = (c0, None) /\ config_chain c0 tr c_gen.
Proof.
  run_cases d svc scheme config w; intros Hin; rewrite Htr in Hin;
    read_all; try contradiction.
  all: destruct Hin as [Hin|[]]; subst c_gen.
  all: rewrite Htr; split; [read_all; reflexivity|].
  all: split; [read_all; rewrite ?app_nil_r, Hlen; reflexivity|].
  all: split;
    [ intros i Hi; read_all; in_norm;
      pick ltac:(exists i; split; [lia|auto])
    | ].
  all: exists c0; split; [assumption|].
  all: unfold t_commit, t_persist, t_backward, t_generate, t_forward;
       rewrite <- !app_assoc;
       apply config_chain_skip; [apply forward_calls_t_head|];
       apply config_chain_cfg_steps;
       apply config_chain_none; read_all; reflexivity.
Qed.

Lemma NoDup_seq_snoc (m : nat) : NoDup (seq 0 m ++ [m]).
Proof. change (NoDup (seq 0 m ++ [0 + m])). rewrite <- seq_S. apply seq_NoDup. Qed.

Lemma NoDup_rev_seq (a m : nat) : NoDup (rev (seq a m)).
Proof. apply NoDup_rev, seq_NoDup. Qed.

Lemma NoDup_rev_seq_snoc (k j : nat) : NoDup (rev (seq (S k) j) ++ [k]).
Proof. change (NoDup (rev (seq k (S j)))). apply NoDup_rev_seq. Qed.

(** X6: No transformer is built twice, none gets a second forward or a second
    reverse call; a forward call is made on a transformer that was built
    just before, and a reverse call on one whose forward call returned
    nil. *)
Theorem transformers_used_once (d : deployer) (svc : service)
  (scheme : Scheme) (config : object) (w : World) :
  let tr := trace (fst (Run d svc scheme config w)) in
  let n := List.length (generators d) in
  NoDup (construct_calls tr) /\
  NoDup (forward_calls tr) /\
  NoDup (backward_calls tr) /\
  (forall i, In i (construct_calls tr) -> i < n) /\
  (forall i, In i (forward_calls tr) -> In (Construct i, None) (calls tr)) /\
  (forall i, In i (backward_calls tr) -> In (Forward i, None) (calls tr)).
Proof.
  run_cases d svc scheme config w; rewrite Htr; clear Htr; read_log;
    rewrite ?app_nil_r.
  all: try replace (List.length (generators d) - List.length mouts)
         with (S (List.length (generators d) - 1 - List.length mouts))
         by lia.
  all: split;
    [ first [ apply NoDup_nil | apply seq_NoDup | apply NoDup_seq_snoc ] | ].
  all: split;
    [ first [ apply NoDup_nil | apply seq_NoDup | apply NoDup_seq_snoc ] | ].
  all: split;
    [ first [ apply NoDup_nil | apply NoDup_rev_seq
            | apply NoDup_rev_seq_snoc ] | ].
  all: split;
    [ intros i Hi; rewrite ?in_app_iff, ?in_seq in Hi; cbn [In] in Hi;
      try contradiction; intuition lia | ].
  all: split;
    [ intros i Hi; rewrite ?in_app_iff, ?in_seq in Hi; cbn [In] in Hi;
      try contradiction; in_norm;
      first [ pick ltac:(exists i; split; [lia|auto])
            | destruct Hi as [Hi|[Hi|[]]];
              [ pick ltac:(exists i; split; [lia|auto])
              | subst i; pick reflexivity ] ]
    | ].
  all: intros i Hi; rewrite ?in_app_iff, <- ?in_rev, ?in_seq in Hi;
       cbn [In] in Hi; try contradiction; in_norm;
       pick ltac:(exists i; split; [lia|auto]).
Qed.

(** X7: With no generator registered, both loops do nothing: [Generate]
    gets the configuration as it was resolved, and [deployConfig] gets the
    deep copy of the status of the service, untouched. *)
Theorem no_generator_registered
  (mg : manifestGenerator Config Bundle World ExtErr)
  (persist : Scheme -> Bundle -> status -> World ->
             Bundle * status * World * option (error ExtErr))
  (commit : service -> status -> object -> World ->
            status * World * option (error ExtErr))
  (svc : service) (scheme : Scheme) (config : object) (w : World) :
  let d : deployer := mkDeployer mg [] persist commit in
  let tr := trace (fst (Run d svc scheme config w)) in
  construct_calls tr = [] /\
  forward_calls tr = [] /\
  backward_calls tr = [] /\
  (forall c_gen,
     In c_gen (generated_from tr) -> c_gen = fst (resolve svc config)) /\
  (forall l st,
     In (l, st) (persisted tr) -> st = DeepCopy (Status svc)).
Proof.
  intros d tr; subst tr.
  run_cases d svc scheme config w;
    subst d; cbn [generators List.length] in *; try lia;
    try (destruct outs; [|discriminate Hlen]);
    try (destruct mouts; [|discriminate Hmlen]);
    rewrite Htr, ?Hres; clear Htr; read_all; cbn [fst snd last].
  all: do 3 (split; [reflexivity|]).
  all: split; [intros c_gen Hin|intros l1 st1 Hin]; try contradiction.
  all: destruct Hin as [Hin|[]]; congruence.
Qed.

(** X8: The manifests and the copy of the status exist only once [Generate]
    has returned nil: a run that stops before leaves neither in the
    store. *)
Theorem no_copy_before_generation (d : deployer) (svc : service)
  (scheme : Scheme) (config : object) (w : World) :
  let s := fst (Run d svc scheme config w) in
  ~ In (Gen, None) (calls (trace s)) ->
  h_l s = None /\ h_status s = None.
Proof.
  run_cases d svc scheme config w; intros Hno; try (split; assumption).
  all: exfalso; apply Hno; rewrite Htr; read_log; in_norm; pick reflexivity.
Qed.

(** X9: The line about the version is in the log exactly when the version read
    returned an error. *)
Theorem version_failure_logged (d : deployer) (svc : service)
  (scheme : Scheme) (config : object) (w : World) :
  let tr := trace (fst (Run d svc scheme config w)) in
  In "Unable to retrieve version from config, ignoring error" (logged tr)
  <-> exists e, In (ReadVersion, Some e) (calls tr).
Proof.
  run_cases d svc scheme config w; rewrite Htr; clear Htr.
  1: { cbn. split.
       - intros [H|[]]. discriminate H.
       - intros [e [H|[]]]. discriminate H. }
  all: destruct verr as [ve|]; read_all; unfold t_head;
       cbn [logged calls call_of app]; rewrite ?app_nil_r; split.
  all: try (intros _; exists ve; in_norm; pick reflexivity).
  all: try (intros _; cbn [In]; solve [auto]).
  all: try (intros [e H]; in_norm; crush; discriminate).
  all: cbn [In String.append]; intros H; exfalso;
       repeat (destruct H as [H|H]; [discriminate H|]); exact H.
Qed.

(** X10: When [NewTransformer] of generator [k] returns an error [e], [Deploy]
    returns [e]: the generators before [k] have been used and their
    transformers have had their forward call, transformer [k] gets none,
    the later generators are not used, the configuration stays as the
    transformers before [k] left it, and nothing is generated, persisted or
    committed. *)
Theorem construction_failure_aborts (d : deployer) (svc : service)
  (scheme : Scheme) (config : object) (w : World)
  (k : nat) (e : error ExtErr) :
  let s := fst (Run d svc scheme config w) in
  In (Construct k, Some e) (calls (trace s)) ->
  snd (Run d svc scheme config w) = Return e /\
  k < List.length (generators d) /\
  construct_calls (trace s) = seq 0 (S k) /\
  forward_calls (trace s) = seq 0 k /\
  generated_from (trace s) = [] /\
  backward_calls (trace s) = [] /\
  persisted (trace s) = [] /\
  committed (trace s) = [] /\
  exists c0 c_end,
    resolve svc config = (c0, None) /\
    config_chain c0 (trace s) c_end /\
    h_c s = Some c_end.
Proof.
  run_cases d svc scheme config w; intros Hin; rewrite Htr in Hin;
    read_all; in_norm; crush; try discriminate; try lia.
  rewrite Htr. read_all. rewrite ?app_nil_r, seq_S. cbn [Nat.add].
  do 8 (split; [auto|]).
  exists c0, (last outs c0). split; [assumption|]. split; [|assumption].
  unfold t_forward. rewrite <- app_assoc.
  apply config_chain_skip; [apply forward_calls_t_head|].
  apply config_chain_cfg_steps. simpl. reflexivity.
Qed.

(** X11: When [Generate] returns an error [e], [Deploy] returns [e]: every
    transformer has had its forward call, no copy of the status is taken,
    no reverse call is made, nothing is persisted or committed, and the
    only event is the announcement of the version. *)
Theorem generation_failure_aborts (d : deployer) (svc : service)
  (scheme : Scheme) (config : object) (w : World) (e : error ExtErr) :
  let s := fst (Run d svc scheme config w) in
  In (Gen, Some e) (calls (trace s)) ->
  snd (Run d svc scheme config w) = Return e /\
  forward_calls (trace s) = seq 0 (List.length (generators d)) /\
  backward_calls (trace s) = [] /\
  persisted (trace s) = [] /\
  committed (trace s) = [] /\
  List.length (emitted (trace s)) = 1 /\
  h_l s = None /\ h_status s = None.
Proof.
  run_cases d svc scheme config w; intros Hin; rewrite Htr in Hin;
    read_all; in_norm; crush; try discriminate; try lia.
  rewrite Htr. read_all. rewrite ?app_nil_r, Hlen. auto 10.
Qed.

(** X12: When [deployConfig] returns an error [e], [Deploy] returns [e]: all the
    reverse calls have been made, the event that the version is set for
    deployment is not emitted, and the commit is not called. *)
Theorem persistence_failure_aborts (d : deployer) (svc : service)
  (scheme : Scheme) (config : object) (w : World) (e : error ExtErr) :
  let s := fst (Run d svc scheme config w) in
  In (Persist, Some e) (calls (trace s)) ->
  snd (Run d svc scheme config w) = Return e /\
  forward_calls (trace s) = seq 0 (List.length (generators d)) /\
  backward_calls (trace s) = rev (seq 0 (List.length (generators d))) /\
  List.length (persisted (trace s)) = 1 /\
  List.length (emitted (trace s)) = 1 /\
  committed (trace s) = [] /\
  (forall err, ~ In (Commit, err) (calls (trace s))).
Proof.
  run_cases d svc scheme config w; intros Hin; rewrite Htr in Hin;
    read_all; in_norm; crush; try discriminate; try lia.
  rewrite Htr. read_all.
  rewrite ?app_nil_r, Hlen, Hmlen, Nat.sub_diag.
  do 6 (split; [reflexivity|]).
  intros err H. in_norm. crush.
Qed.

(** X13: When the first loop goes through, the slice [transformers] has grown
    by one transformer per generator, in the order of the generators: the
    transformer at a position is the one the generator at that position
    returned for the service.  This is what lets the second loop reach the
    transformers by position. *)
Theorem forward_builds_in_order (gens : list generator) :
  forall (i : nat) (trs : list transformer) (c : Config) (s s' : store)
         (trs' : list transformer) (c' : Config),
    forward i gens trs c s = (s', Ok (trs', c')) ->
    exists built,
      trs' = trs ++ built /\
      Forall2 (fun g tr =>
                 exists w w', NewTransformer g (h_svc s) w = (w', inr tr))
        gens built.
Proof.
  induction gens as [|t gens IH]; intros i trs c s s' trs' c' Hrun.
  - simpl in Hrun. inversion Hrun; subst. exists [].
    rewrite app_nil_r. split; [reflexivity|constructor].
  - simpl in Hrun. unfold bind at 1 in Hrun. unfold do_NewTransformer in Hrun.
    destruct (NewTransformer t (h_svc s) (world s)) as [w1 [e|tr]] eqn:Hnew;
      [discriminate Hrun|].
    unfold bind at 1 in Hrun. unfold do_TransformConfig in Hrun.
    cbn [world set_world record] in Hrun.
    destruct (TransformConfig tr c w1) as [[c1 w2] [e|]];
      [discriminate Hrun|].
    apply IH in Hrun. destruct Hrun as (built & Htrs & Hall).
    exists (tr :: built). split.
    + rewrite Htrs, <- app_assoc. reflexivity.
    + constructor; [|exact Hall]. exists (world s), w1. exact Hnew.
Qed.

End Properties.

(** * The scenarios of the spec, run *)

(** Scenario A: the configuration ends with the markers A, B, C, the
    manifests with C, B, A, and the committed status has version 1.20.0. *)
Example scenario_A_runs :
  snd Scenario.scenario_A = Ok tt /\
  h_c (fst Scenario.scenario_A) = Some (Some "1.20.0", ["A"; "B"; "C"]) /\
  h_l (fst Scenario.scenario_A) = Some ["C"; "B"; "A"] /\
  committed (trace (fst Scenario.scenario_A))
  = [mkStatus "1.20.0" ["old"; "C"; "B"; "A"]] /\
  world (fst Scenario.scenario_A) = ["C"; "B"; "A"; "1.20.0"].
Proof. repeat split. Qed.

(** Scenario B: nothing but the resolution is called. *)
Example scenario_B_runs :
  snd Scenario.scenario_B
  = Return (Errorf "SpinnakerService does not reference configMap or secret. No configuration found") /\
  construct_calls (trace (fst Scenario.scenario_B)) = [] /\
  emitted (trace (fst Scenario.scenario_B)) = [] /\
  committed (trace (fst Scenario.scenario_B)) = [].
Proof. repeat split. Qed.

(** Scenario C: the marker of A, and what B did before it failed, are in
    the configuration; C is neither built nor called. *)
Example scenario_C_runs :
  snd Scenario.scenario_C = Return (ExtError "B") /\
  h_c (fst Scenario.scenario_C) = Some (Some "1.20.0", ["A"; "B"]) /\
  calls (trace (fst Scenario.scenario_C))
  = [(Resolve, None); (ReadVersion, None);
     (Construct 0, None); (Forward 0, None);
     (Construct 1, None); (Forward 1, Some (ExtError "B"))] /\
  Status (h_svc (fst Scenario.scenario_C)) = Status Scenario.svc0.
Proof. repeat split. Qed.

(** Scenario D: the artifacts are in the cluster, the status of the
    service is the old one. *)
Example scenario_D_runs :
  snd Scenario.scenario_D = Return (ExtError "commit") /\
  world (fst Scenario.scenario_D) = ["C"; "B"; "A"] /\
  Status (h_svc (fst Scenario.scenario_D)) = mkStatus "1.19.0" ["old"] /\
  h_status (fst Scenario.scenario_D)
  = Some (mkStatus "1.20.0" ["old"; "C"; "B"; "A"]).
Proof. repeat split. Qed.

(** Without a version in the config map the run still succeeds. *)
Example scenario_no_version_runs :
  snd Scenario.scenario_no_version = Ok tt /\
  emitted (trace (fst Scenario.scenario_no_version))
  = ["New configuration detected, version: ";
     "Spinnaker version  deployment set"] /\
  committed (trace (fst Scenario.scenario_no_version))
  = [mkStatus "" ["old"; "C"; "B"; "A"]].
Proof. repeat split. Qed.

(** The error of the secret loader is what comes back. *)
Example scenario_secret_runs :
  snd Scenario.scenario_secret = Return (ExtError "secret cannot be read") /\
  calls (trace (fst Scenario.scenario_secret))
  = [(Resolve, Some (ExtError "secret cannot be read"))].
Proof. repeat split. Qed.

(** * The theorems at work on the scenarios *)


Lemma forward_failure_aborts_witness :
  In (Forward 1, Some (ExtError "B"))
    (calls (trace (fst Scenario.scenario_C))) /\
  snd Scenario.scenario_C = Return (ExtError "B") /\
  forward_calls (trace (fst Scenario.scenario_C)) = [0; 1] /\
  construct_calls (trace (fst Scenario.scenario_C)) = [0; 1] /\
  committed (trace (fst Scenario.scenario_C)) = [].
Proof.
  assert (H : In (Forward 1, Some (ExtError "B"))
                (calls (trace (fst Scenario.scenario_C)))).
  { simpl. do 5 right. left. reflexivity. }
  split; [exact H|].
  destruct (forward_failure_aborts
              Scenario.newConfig Scenario.fromConfigMap Scenario.fromSecret
              Scenario.propString
              (Scenario.deployer_of
                 [Scenario.marker "A"; Scenario.mkPlan "B" true false true;
                  Scenario.marker "C"] true true true)
              Scenario.svc0 tt (ConfigMapObj (Some "1.20.0")) []
              1 (ExtError "B") H) as (Hr & _ & Hf & Hc & _ & _ & Hm & _).
  repeat split; assumption.
Defined.

Lemma reverse_failure_aborts_witness :
  In (Backward 1, Some (ExtError "B"))
    (calls (trace (fst Scenario.scenario_reverse))) /\
  snd Scenario.scenario_reverse = Return (ExtError "B") /\
  backward_calls (trace (fst Scenario.scenario_reverse)) = [2; 1] /\
  persisted (trace (fst Scenario.scenario_reverse)) = [] /\
  committed (trace (fst Scenario.scenario_reverse)) = [].
Proof.
  assert (H : In (Backward 1, Some (ExtError "B"))
                (calls (trace (fst Scenario.scenario_reverse)))).
  { simpl. do 10 right. left. reflexivity. }
  split; [exact H|].
  destruct (reverse_failure_aborts
              Scenario.newConfig Scenario.fromConfigMap Scenario.fromSecret
              Scenario.propString
              (Scenario.deployer_of
                 [Scenario.marker "A"; Scenario.mkPlan "B" true true false;
                  Scenario.marker "C"] true true true)
              Scenario.svc0 tt (ConfigMapObj (Some "1.20.0")) []
              1 (ExtError "B") H) as (Hr & _ & Hb & _ & _ & Hp & Hm & _).
  repeat split; assumption.
Defined.

Lemma version_failure_tolerated_witness :
  completeConfig Scenario.newConfig Scenario.fromConfigMap Scenario.fromSecret
    Scenario.svc0 (ConfigMapObj None : Object _ _ unit)
  = ((None, []), None) /\
  Scenario.propString (None, []) "version"
  = inl (ExtError "property not found") /\
  In (LogInfo "Unable to retrieve version from config, ignoring error")
    (trace (fst Scenario.scenario_no_version)) /\
  (forall st,
     In st (committed (trace (fst Scenario.scenario_no_version))) ->
     Version st = EmptyString).
Proof.
  split; [reflexivity|]. split; [reflexivity|].
  destruct (version_failure_tolerated
              Scenario.newConfig Scenario.fromConfigMap Scenario.fromSecret
              Scenario.propString
              (Scenario.deployer_of Scenario.abc true true true)
              Scenario.svc0 tt (ConfigMapObj None) []
              (c := (None, [])) (ev := ExtError "property not found")
              eq_refl eq_refl) as (_ & Hlog & _ & _ & _ & _ & Hst).
  split; [exact Hlog|exact Hst].
Defined.

(** C6 as the spec states it fails: in scenario A the second and the third
    transformer are built after the first forward call, and in scenario C
    the failure of the second forward call keeps the third transformer from
    being built. *)
Lemma construction_not_before_forward :
  ~ all_built_before_forward 3 (trace (fst Scenario.scenario_A)) /\
  ~ In 2 (construct_calls (trace (fst Scenario.scenario_C))).
Proof.
  split.
  - unfold all_built_before_forward. simpl. discriminate.
  - simpl. intros [H|[H|[]]]; discriminate H.
Qed.

(** * More runs *)

(** Without generators the pipeline is the resolution, the version read,
    the generation, the persistence and the commit. *)
Example scenario_empty_runs :
  snd Scenario.scenario_empty = Ok tt /\
  map fst (calls (trace (fst Scenario.scenario_empty)))
  = [Resolve; ReadVersion; Gen; Persist; Commit] /\
  committed (trace (fst Scenario.scenario_empty))
  = [mkStatus "1.20.0" ["old"]].
Proof. repeat split. Qed.

Lemma committed_version_is_announced_witness :
  In (mkStatus "1.20.0" ["old"; "C"; "B"; "A"])
    (committed (trace (fst Scenario.scenario_A))) /\
  emitted (trace (fst Scenario.scenario_A))
  = ["New configuration detected, version: 1.20.0";
     "Spinnaker version 1.20.0 deployment set"].
Proof.
  assert (H : In (mkStatus "1.20.0" ["old"; "C"; "B"; "A"])
                (committed (trace (fst Scenario.scenario_A)))).
  { simpl. left. reflexivity. }
  split; [exact H|].
  exact (committed_version_is_announced
           Scenario.newConfig Scenario.fromConfigMap Scenario.fromSecret
           Scenario.propString
           (Scenario.deployer_of Scenario.abc true true true)
           Scenario.svc0 tt (ConfigMapObj (Some "1.20.0")) [] _ H).
Defined.

Lemma generate_gets_transformed_config_witness :
  In (Some "1.20.0", ["A"; "B"; "C"])
    (generated_from (trace (fst Scenario.scenario_A))) /\
  generated_from (trace (fst Scenario.scenario_A))
  = [(Some "1.20.0", ["A"; "B"; "C"])] /\
  forward_calls (trace (fst Scenario.scenario_A)) = [0; 1; 2].
Proof.
  assert (H : In (Some "1.20.0", ["A"; "B"; "C"])
                (generated_from (trace (fst Scenario.scenario_A)))).
  { simpl. left. reflexivity. }
  split; [exact H|].
  destruct (generate_gets_transformed_config
              Scenario.newConfig Scenario.fromConfigMap Scenario.fromSecret
              Scenario.propString
              (Scenario.deployer_of Scenario.abc true true true)
              Scenario.svc0 tt (ConfigMapObj (Some "1.20.0")) [] _ H)
    as (Hg & Hf & _).
  split; [exact Hg|exact Hf].
Defined.

Lemma no_copy_before_generation_witness :
  ~ In (Gen, None) (calls (trace (fst Scenario.scenario_generate))) /\
  h_l (fst Scenario.scenario_generate) = None /\
  h_status (fst Scenario.scenario_generate) = None.
Proof.
  assert (H : ~ In (Gen, None)
                (calls (trace (fst Scenario.scenario_generate)))).
  { simpl. intros H.
    repeat (destruct H as [H|H]; [discriminate H|]). exact H. }
  split; [exact H|].
  exact (no_copy_before_generation
           Scenario.newConfig Scenario.fromConfigMap Scenario.fromSecret
           Scenario.propString
           (Scenario.deployer_of Scenario.abc false true true)
           Scenario.svc0 tt (ConfigMapObj (Some "1.20.0")) [] H).
Defined.

Lemma construction_failure_aborts_witness :
  In (Construct 1, Some (ExtError "B"))
    (calls (trace (fst Scenario.scenario_construct))) /\
  snd Scenario.scenario_construct = Return (ExtError "B") /\
  construct_calls (trace (fst Scenario.scenario_construct)) = [0; 1] /\
  forward_calls (trace (fst Scenario.scenario_construct)) = [0].
Proof.
  assert (H : In (Construct 1, Some (ExtError "B"))
                (calls (trace (fst Scenario.scenario_construct)))).
  { simpl. do 4 right. left. reflexivity. }
  split; [exact H|].
  destruct (construction_failure_aborts
              Scenario.newConfig Scenario.fromConfigMap Scenario.fromSecret
              Scenario.propString
              (Scenario.deployer_of
                 [Scenario.marker "A"; Scenario.mkPlan "B" false true true;
                  Scenario.marker "C"] true true true)
              Scenario.svc0 tt (ConfigMapObj (Some "1.20.0")) []
              1 (ExtError "B") H) as (Hr & _ & Hc & Hf & _).
  repeat split; assumption.
Defined.

Lemma generation_failure_aborts_witness :
  In (Gen, Some (ExtError "generate"))
    (calls (trace (fst Scenario.scenario_generate))) /\
  snd Scenario.scenario_generate = Return (ExtError "generate") /\
  forward_calls (trace (fst Scenario.scenario_generate)) = [0; 1; 2] /\
  backward_calls (trace (fst Scenario.scenario_generate)) = [].
Proof.
  assert (H : In (Gen, Some (ExtError "generate"))
                (calls (trace (fst Scenario.scenario_generate)))).
  { simpl. do 8 right. left. reflexivity. }
  split; [exact H|].
  destruct (generation_failure_aborts
              Scenario.newConfig Scenario.fromConfigMap Scenario.fromSecret
              Scenario.propString
              (Scenario.deployer_of Scenario.abc false true true)
              Scenario.svc0 tt (ConfigMapObj (Some "1.20.0")) []
              (ExtError "generate") H) as (Hr & Hf & Hb & _).
  repeat split; assumption.
Defined.

Lemma persistence_failure_aborts_witness :
  In (Persist, Some (ExtError "persist"))
    (calls (trace (fst Scenario.scenario_persist))) /\
  snd Scenario.scenario_persist = Return (ExtError "persist") /\
  backward_calls (trace (fst Scenario.scenario_persist)) = [2; 1; 0] /\
  committed (trace (fst Scenario.scenario_persist)) = [].
Proof.
  assert (H : In (Persist, Some (ExtError "persist"))
                (calls (trace (fst Scenario.scenario_persist)))).
  { simpl. do 12 right. left. reflexivity. }
  split; [exact H|].
  destruct (persistence_failure_aborts
              Scenario.newConfig Scenario.fromConfigMap Scenario.fromSecret
              Scenario.propString
              (Scenario.deployer_of Scenario.abc true false true)
              Scenario.svc0 tt (ConfigMapObj (Some "1.20.0")) []
              (ExtError "persist") H) as (Hr & _ & Hb & _ & _ & Hm & _).
  repeat split; assumption.
Defined.

Lemma forward_builds_in_order_witness :
  exists built,
    map Scenario.transformer_of Scenario.abc = [] ++ built /\
    Forall2 (fun g tr =>
               exists w w' : Scenario.cluster,
                 NewTransformer g Scenario.svc0 w = (w', inr tr))
      (map Scenario.generator_of Scenario.abc) built.
Proof.
  exact (forward_builds_in_order
           (map Scenario.generator_of Scenario.abc) 0 []
           (Some "1.20.0", [])
           (initial Scenario.svc0 [])
           (s' := fst (forward 0 (map Scenario.generator_of Scenario.abc) []
                         (Some "1.20.0", []) (initial Scenario.svc0 [])))
           (trs' := map Scenario.transformer_of Scenario.abc)
           (c' := (Some "1.20.0", ["A"; "B"; "C"]))
           eq_refl).
Defined.
